(** * gss-client: token framing, context establishment and the sign session

    A shallow embedding of [examples/c/gss-client.c] (the GSS-API sample
    client) and of the token transport declared in [examples/c/gss-misc.h].

    - [TokenTransport]: the length-prefixed framing of [send_token] and
      [recv_token] over a byte stream.
    - [GssClient]: [connect_to_server], [client_establish_context],
      [read_file], [call_server], [parse_oid] and [main], run against an
      arbitrary environment (security provider, peer, operating system)
      and producing the trace of the external calls they make. *)

From Stdlib Require Import ZArith NArith List String Ascii Bool Lia.
From Stdlib Require Import Strings.Byte.
Import ListNotations.

(** ** Token transport *)

Module TokenTransport.

Local Open Scope N_scope.

(** A reliable byte stream seen from both ends: the bytes written and not
    yet read, the number of bytes the connection still accepts before it
    resets, and the sizes of the reads requested so far. *)
Record stream : Type := mk_stream {
  pending : list byte;
  room : N;
  reads : list N
}.

Definition fresh (cap : N) : stream :=
  {| pending := []; room := cap; reads := [] |}.

Inductive TransportError : Type := Io | Oversized.

Inductive result (A : Type) : Type :=
| Ok (a : A)
| Err (e : TransportError).
Arguments Ok {A} a.
Arguments Err {A} e.

Definition len (bs : list byte) : N := N.of_nat (List.length bs).

(** The underlying write: all of [bs] or nothing. *)
Definition write_all (s : stream) (bs : list byte) : option stream :=
  if len bs <=? room s
  then Some {| pending := pending s ++ bs; room := room s - len bs; reads := reads s |}
  else None.

(** The underlying read of exactly [n] bytes; a short read or end of
    stream yields no bytes.  Every request is recorded. *)
Definition read_exact (s : stream) (n : N) : option (list byte) * stream :=
  if n <=? len (pending s)
  then (Some (firstn (N.to_nat n) (pending s)),
        {| pending := skipn (N.to_nat n) (pending s); room := room s; reads := reads s ++ [n] |})
  else (None, {| pending := pending s; room := room s; reads := reads s ++ [n] |}).

Definition byte_of_N (n : N) : byte :=
  match Byte.of_N n with
  | Some b => b
  | None => x00
  end.

(** The 4-byte big-endian image of a length (taken modulo 2^32). *)
Definition be32 (n : N) : list byte :=
  [ byte_of_N ((n / 16777216) mod 256);
    byte_of_N ((n / 65536) mod 256);
    byte_of_N ((n / 256) mod 256);
    byte_of_N (n mod 256) ].

Definition be32_decode (hdr : list byte) : N :=
  fold_left (fun acc b => acc * 256 + Byte.to_N b) hdr 0.

(** Modelled from the spec: [send_token], whose body (gss-misc.c) is not
    among the sources; only its declaration in gss-misc.h is.  It writes a
    4-byte big-endian length prefix of the token's length followed by the
    token's bytes, and fails with [Io] when a write does not complete. *)
Definition send_token (s : stream) (tok : list byte) : result stream :=
  match write_all s (be32 (len tok)) with
  | None => Err Io
  | Some s1 =>
      match write_all s1 tok with
      | None => Err Io
      | Some s2 => Ok s2
      end
  end.

(** Modelled from the spec: [recv_token], whose body (gss-misc.c) is not
    among the sources.  It reads exactly 4 bytes as a big-endian length,
    rejects a length above the configured bound with [Oversized], then reads
    exactly that many bytes; a short read or end of stream is [Io]. *)
Definition recv_token (bound : N) (s : stream) : result (list byte) * stream :=
  match read_exact s 4 with
  | (None, s1) => (Err Io, s1)
  | (Some hdr, s1) =>
      let n := be32_decode hdr in
      if bound <? n then (Err Oversized, s1)
      else
        match read_exact s1 n with
        | (None, s2) => (Err Io, s2)
        | (Some bs, s2) => (Ok bs, s2)
        end
  end.

End TokenTransport.

(** ** The client *)

Module GssClient.

Local Open Scope string_scope.
Local Open Scope list_scope.
Local Open Scope Z_scope.

(** *** Types and constants of <gssapi/gssapi.h> *)

Definition OM_uint32 : Type := Z.

Definition GSS_S_COMPLETE : OM_uint32 := 0.
Definition GSS_S_CONTINUE_NEEDED : OM_uint32 := 1.

Definition GSS_C_DELEG_FLAG : OM_uint32 := 1.
Definition GSS_C_MUTUAL_FLAG : OM_uint32 := 2.
Definition GSS_C_REPLAY_FLAG : OM_uint32 := 4.

Definition GSS_C_QOP_DEFAULT : OM_uint32 := 0.

(** [gss_buffer_desc]: a length and the bytes [value] points to. *)
Record gss_buffer_desc : Type := mk_buffer {
  length : Z;
  value : list byte
}.

(** [gss_buffer_t]: a pointer to a buffer, [GSS_C_NO_BUFFER] when null. *)
Definition gss_buffer_t : Type := option gss_buffer_desc.
Definition GSS_C_NO_BUFFER : gss_buffer_t := None.

(** Opaque handles of the provider. *)
Definition gss_name_t : Type := Z.
Definition gss_ctx_id_t : Type := option Z.
Definition GSS_C_NO_CONTEXT : gss_ctx_id_t := None.

Definition gss_OID_desc : Type := list byte.
Definition gss_OID : Type := option gss_OID_desc.
Definition GSS_C_NULL_OID : gss_OID := None.
Definition gss_OID_set : Type := list gss_OID_desc.

(** 1.2.840.113554.1.2.1.4 *)
Definition GSS_C_NT_HOSTBASED_SERVICE : gss_OID :=
  Some [x2a; x86; x48; x86; xf7; x12; x01; x02; x01; x04].

Definition is_no_context (c : gss_ctx_id_t) : bool :=
  match c with
  | None => true
  | Some _ => false
  end.

Definition is_null_oid (o : gss_OID) : bool :=
  match o with
  | None => true
  | Some _ => false
  end.

(** The bytes of a C string (without its terminating NUL), and its length. *)
Definition c_bytes (s : string) : list byte := list_byte_of_string s.
Definition strlen (s : string) : Z := Z.of_nat (String.length s).

(** *** What the environment returns *)

Record hostent : Type := mk_hostent {
  h_addrtype : Z;
  h_addr : list byte
}.

Record sockaddr_in : Type := mk_sockaddr {
  sin_family : Z;
  sin_addr : list byte;
  sin_port : Z
}.

Record init_sec_context_result : Type := mk_init_result {
  init_maj_stat : OM_uint32;
  init_min_stat : OM_uint32;
  init_context : gss_ctx_id_t;      (* *context_handle on return *)
  init_output_token : gss_buffer_desc;
  init_ret_flags : OM_uint32
}.

Record inquire_context_result : Type := mk_inquire_result {
  inq_maj_stat : OM_uint32;
  inq_min_stat : OM_uint32;
  inq_src_name : gss_name_t;
  inq_targ_name : gss_name_t;
  inq_lifetime : OM_uint32;
  inq_mechanism : gss_OID;
  inq_context_flags : OM_uint32;
  inq_is_local : Z;
  inq_is_open : Z
}.

Record wrap_result : Type := mk_wrap_result {
  wrap_maj_stat : OM_uint32;
  wrap_min_stat : OM_uint32;
  wrap_conf_state : Z;
  wrap_output : gss_buffer_desc
}.

(** The collaborators of the client over a world [W]: the resolver and
    socket layer, the C library, the token transport of gss-misc and the
    security provider.  Every call takes the world and returns the next
    one with the values it gives back (status codes first). *)
Record Env (W : Type) : Type := mk_env {
  gethostbyname : W -> string -> W * option hostent;
  socket : W -> W * Z;
  connect : W -> Z -> sockaddr_in -> W * Z;
  close : W -> Z -> W;
  atoi : string -> Z;
  malloc : W -> Z -> W * bool;                 (* true: non-null *)
  free : W -> W;
  open : W -> string -> W * Z;
  fstat : W -> Z -> W * (Z * Z);               (* result, st_size *)
  read : W -> Z -> Z -> W * (Z * list byte);   (* count, bytes read *)
  send_token : W -> Z -> gss_buffer_desc -> W * Z;
  recv_token : W -> Z -> W * (Z * gss_buffer_desc);
  gss_import_name : W -> gss_buffer_desc -> gss_OID -> W * (OM_uint32 * OM_uint32 * gss_name_t);
  gss_init_sec_context :
    W -> gss_ctx_id_t -> gss_name_t -> gss_OID -> OM_uint32 -> gss_buffer_t ->
    W * init_sec_context_result;
  gss_release_buffer : W -> gss_buffer_desc -> W;
  gss_release_name : W -> gss_name_t -> W;
  gss_delete_sec_context :
    W -> gss_ctx_id_t -> bool -> W * (OM_uint32 * OM_uint32 * gss_ctx_id_t * gss_buffer_desc);
  gss_inquire_context : W -> gss_ctx_id_t -> W * inquire_context_result;
  gss_display_name : W -> gss_name_t -> W * (OM_uint32 * OM_uint32 * gss_buffer_desc * gss_OID);
  gss_oid_to_str : W -> gss_OID -> W * (OM_uint32 * OM_uint32 * gss_buffer_desc);
  gss_inquire_names_for_mech : W -> gss_OID -> W * (OM_uint32 * OM_uint32 * gss_OID_set);
  gss_release_oid_set : W -> gss_OID_set -> W;
  gss_wrap : W -> gss_ctx_id_t -> Z -> OM_uint32 -> gss_buffer_desc -> W * wrap_result;
  gss_verify_mic :
    W -> gss_ctx_id_t -> gss_buffer_desc -> gss_buffer_desc -> W * (OM_uint32 * OM_uint32);
  (* the OID behind the out-pointer before the call, and after it *)
  gss_str_to_oid : W -> gss_buffer_desc -> gss_OID -> W * (OM_uint32 * OM_uint32 * gss_OID);
  gss_release_oid : W -> gss_OID -> W
}.

Arguments gethostbyname {W}.
Arguments socket {W}.
Arguments connect {W}.
Arguments close {W}.
Arguments atoi {W}.
Arguments malloc {W}.
Arguments free {W}.
Arguments open {W}.
Arguments fstat {W}.
Arguments read {W}.
Arguments send_token {W}.
Arguments recv_token {W}.
Arguments gss_import_name {W}.
Arguments gss_init_sec_context {W}.
Arguments gss_release_buffer {W}.
Arguments gss_release_name {W}.
Arguments gss_delete_sec_context {W}.
Arguments gss_inquire_context {W}.
Arguments gss_display_name {W}.
Arguments gss_oid_to_str {W}.
Arguments gss_inquire_names_for_mech {W}.
Arguments gss_release_oid_set {W}.
Arguments gss_wrap {W}.
Arguments gss_verify_mic {W}.
Arguments gss_str_to_oid {W}.
Arguments gss_release_oid {W}.

(** *** The trace of a run: one event per external call, in order *)

Inductive event : Type :=
| ev_gethostbyname (host : string)
| ev_socket (s : Z)
| ev_connect (s : Z) (rc : Z)
| ev_close (s : Z)
| ev_malloc (size : Z)
| ev_free
| ev_open (file_name : string) (fd : Z)
| ev_fstat (fd : Z)
| ev_read (fd : Z) (count : Z)
| ev_send_token (s : Z) (tok : gss_buffer_desc) (rc : Z)
| ev_recv_token (s : Z) (rc : Z)
| ev_import_name (name : gss_buffer_desc) (maj_stat : OM_uint32)
| ev_init_sec_context (context : gss_ctx_id_t) (target_name : gss_name_t) (oid : gss_OID)
    (req_flags : OM_uint32) (input_token : gss_buffer_t) (maj_stat : OM_uint32)
| ev_release_buffer (buf : gss_buffer_desc)
| ev_release_name (name : gss_name_t)
| ev_delete_sec_context (context : gss_ctx_id_t)
| ev_inquire_context (context : gss_ctx_id_t) (maj_stat : OM_uint32)
| ev_display_name (name : gss_name_t) (maj_stat : OM_uint32)
| ev_oid_to_str (oid : gss_OID) (maj_stat : OM_uint32)
| ev_inquire_names_for_mech (mechanism : gss_OID) (maj_stat : OM_uint32)
| ev_release_oid_set
| ev_wrap (context : gss_ctx_id_t) (conf_req : Z) (input : gss_buffer_desc) (maj_stat : OM_uint32)
    (output : gss_buffer_desc)
| ev_verify_mic (context : gss_ctx_id_t) (msg : gss_buffer_desc) (tok : gss_buffer_desc)
    (maj_stat : OM_uint32)
| ev_str_to_oid (str : gss_buffer_desc) (maj_stat : OM_uint32)
| ev_release_oid (oid : gss_OID)
| ev_display_status (msg : string) (maj_stat min_stat : OM_uint32)
| ev_display_ctx_flags (flags : OM_uint32)
| ev_stdout (fmt : string)
| ev_stderr (fmt : string)
| ev_perror (msg : string).

(** *** Control flow of a C function body *)

Inductive outcome (R A : Type) : Type :=
| Normal (a : A)       (* control reaches the next statement *)
| Returned (r : R)     (* a [return] statement was executed *)
| Exited (code : Z)    (* [exit(code)] was called *)
| Unfinished.          (* the loop budget of the model ran out *)
Arguments Normal {R A} a.
Arguments Returned {R A} r.
Arguments Exited {R A} code.
Arguments Unfinished {R A}.

Section Monad.

Context {W : Type}.

(** A statement of a function returning [R]: from a world to an outcome,
    the next world and the events emitted. *)
Definition M (R A : Type) : Type := W -> outcome R A * W * list event.

Definition ret {R A : Type} (a : A) : M R A :=
  fun w => (Normal a, w, []).

Definition bind {R A B : Type} (m : M R A) (k : A -> M R B) : M R B :=
  fun w =>
    match m w with
    | (Normal a, w1, t1) => let '(o, w2, t2) := k a w1 in (o, w2, t1 ++ t2)
    | (Returned r, w1, t1) => (Returned r, w1, t1)
    | (Exited c, w1, t1) => (Exited c, w1, t1)
    | (Unfinished, w1, t1) => (Unfinished, w1, t1)
    end.

Definition return_ {R A : Type} (r : R) : M R A :=
  fun w => (Returned r, w, []).

Definition exit {R A : Type} (code : Z) : M R A :=
  fun w => (Exited code, w, []).

Definition unfinished {R A : Type} : M R A :=
  fun w => (Unfinished, w, []).

Definition emit {R : Type} (e : event) : M R unit :=
  fun w => (Normal tt, w, [e]).

(** An external call that gives back a value, logged by [ev]. *)
Definition call {R A : Type} (op : W -> W * A) (ev : A -> event) : M R A :=
  fun w => let (w1, a) := op w in (Normal a, w1, [ev a]).

(** An external call whose result is ignored. *)
Definition call_ {R : Type} (op : W -> W) (ev : event) : M R unit :=
  fun w => (Normal tt, op w, [ev]).

Definition when {R : Type} (c : bool) (m : M R unit) : M R unit :=
  if c then m else ret tt.

(** Calling a function: its [return] becomes the value of the call. *)
Definition invoke {R R' : Type} (body : M R R) : M R' R :=
  fun w =>
    match body w with
    | (Normal r, w1, t) => (Normal r, w1, t)
    | (Returned r, w1, t) => (Normal r, w1, t)
    | (Exited c, w1, t) => (Exited c, w1, t)
    | (Unfinished, w1, t) => (Unfinished, w1, t)
    end.

End Monad.

Declare Scope c_scope.
Delimit Scope c_scope with c.
Notation "x <- m ;; k" := (bind m (fun x => k))
  (at level 61, m at next level, right associativity) : c_scope.
Notation "m ;; k" := (bind m (fun _ => k))
  (at level 61, right associativity) : c_scope.
Local Open Scope c_scope.

(** *** The program *)

Section Program.

Context {W : Type} (E : Env W).

Definition fprintf_stderr {R : Type} (fmt : string) : M (W := W) R unit := emit (ev_stderr fmt).
Definition printf {R : Type} (fmt : string) : M (W := W) R unit := emit (ev_stdout fmt).
Definition perror {R : Type} (msg : string) : M (W := W) R unit := emit (ev_perror msg).

(** [display_status] and [display_ctx_flags] of gss-misc only write to the
    diagnostic sink. *)
Definition display_status {R : Type} (msg : string) (maj_stat min_stat : OM_uint32)
  : M (W := W) R unit :=
  emit (ev_display_status msg maj_stat min_stat).

Definition display_ctx_flags {R : Type} (flags : OM_uint32) : M (W := W) R unit :=
  emit (ev_display_ctx_flags flags).

Definition do_close {R : Type} (s : Z) : M R unit :=
  call_ (fun w => close E w s) (ev_close s).

Definition release_buffer {R : Type} (buf : gss_buffer_desc) : M R unit :=
  call_ (fun w => gss_release_buffer E w buf) (ev_release_buffer buf).

Definition release_name {R : Type} (name : gss_name_t) : M R unit :=
  call_ (fun w => gss_release_name E w name) (ev_release_name name).

Definition delete_sec_context {R : Type} (context : gss_ctx_id_t) (want_token : bool)
  : M R (OM_uint32 * OM_uint32 * gss_ctx_id_t * gss_buffer_desc) :=
  call (fun w => gss_delete_sec_context E w context want_token)
       (fun _ => ev_delete_sec_context context).

Definition do_send_token {R : Type} (s : Z) (tok : gss_buffer_desc) : M R Z :=
  call (fun w => send_token E w s tok) (ev_send_token s tok).

Definition do_recv_token {R : Type} (s : Z) : M R (Z * gss_buffer_desc) :=
  call (fun w => recv_token E w s) (fun r => ev_recv_token s (fst r)).

Definition oid_to_str {R : Type} (oid : gss_OID)
  : M R (OM_uint32 * OM_uint32 * gss_buffer_desc) :=
  call (fun w => gss_oid_to_str E w oid) (fun r => ev_oid_to_str oid (fst (fst r))).

(** [usage]: prints the usage line and exits with status 1. *)
Definition usage {R A : Type} : M (W := W) R A :=
  fprintf_stderr "Usage: gss-client [-port port] [-d] [-seal] [-mutual] host service msg\n" ;;
  exit 1.

(** [connect_to_server]: the socket descriptor, or -1 on failure. *)
Definition connect_to_server (host : string) (port : Z) : M Z Z :=
  hp <- call (fun w => gethostbyname E w host) (fun _ => ev_gethostbyname host) ;;
  match hp with
  | None =>
      fprintf_stderr "Unknown host: %s\n" ;;
      return_ (-1)
  | Some hp =>
      let saddr := {| sin_family := h_addrtype hp;
                      sin_addr := firstn 4 (h_addr hp);
                      sin_port := port |} in
      s <- call (socket E) ev_socket ;;
      when (s <? 0) (
        perror "creating socket" ;;
        return_ (-1)) ;;
      rc <- call (fun w => connect E w s saddr) (ev_connect s) ;;
      when (rc <? 0) (
        perror "connecting to server" ;;
        do_close s ;;
        return_ (-1)) ;;
      ret s
  end.

(** The variables the establishment loop carries from one pass to the
    next: [*gss_context], [*ret_flags], [token_ptr] (null, or [&recv_tok]
    with what was received) and [maj_stat]. *)
Record negotiation : Type := mk_negotiation {
  neg_context : gss_ctx_id_t;
  neg_ret_flags : OM_uint32;
  neg_token_ptr : gss_buffer_t;
  neg_maj_stat : OM_uint32
}.

(** What [client_establish_context] hands back: its return value and the
    contents of the out-parameters [*gss_context] and [*ret_flags]. *)
Definition established : Type := (Z * gss_ctx_id_t * OM_uint32)%type.

(** One pass through the body of the do-while loop. *)
Definition establish_round (s : Z) (target_name : gss_name_t) (oid : gss_OID)
    (req_flags : OM_uint32) (v : negotiation) : M established negotiation :=
  r <- call (fun w => gss_init_sec_context E w (neg_context v) target_name oid
                        (Z.lor req_flags GSS_C_REPLAY_FLAG) (neg_token_ptr v))
            (fun r => ev_init_sec_context (neg_context v) target_name oid
                        (Z.lor req_flags GSS_C_REPLAY_FLAG) (neg_token_ptr v)
                        (init_maj_stat r)) ;;
  let maj_stat := init_maj_stat r in
  let send_tok := init_output_token r in
  let gss_context := init_context r in
  let ret_flags := init_ret_flags r in
  match neg_token_ptr v with
  | Some recv_tok => release_buffer recv_tok
  | None => ret tt
  end ;;
  when (negb (length send_tok =? 0)) (
    printf "Sending init_sec_context token (size=%ld)..." ;;
    rc <- do_send_token s send_tok ;;
    when (rc <? 0) (
      release_buffer send_tok ;;
      release_name target_name ;;
      return_ (-1, gss_context, ret_flags))) ;;
  release_buffer send_tok ;;
  when (negb (maj_stat =? GSS_S_COMPLETE) && negb (maj_stat =? GSS_S_CONTINUE_NEEDED)) (
    display_status "initializing context" maj_stat (init_min_stat r) ;;
    release_name target_name ;;
    if is_no_context gss_context
    then
      d <- delete_sec_context gss_context false ;;
      return_ (-1, snd (fst d), ret_flags)
    else return_ (-1, gss_context, ret_flags)) ;;
  token_ptr <-
    (if maj_stat =? GSS_S_CONTINUE_NEEDED
     then
       printf "continue needed..." ;;
       rv <- do_recv_token s ;;
       when (fst rv <? 0) (
         release_name target_name ;;
         return_ (-1, gss_context, ret_flags)) ;;
       ret (Some (snd rv))
     else ret (neg_token_ptr v)) ;;
  printf "\n" ;;
  ret {| neg_context := gss_context;
         neg_ret_flags := ret_flags;
         neg_token_ptr := token_ptr;
         neg_maj_stat := maj_stat |}.

(** [do { ... } while (maj_stat == GSS_S_CONTINUE_NEEDED)]; [fuel] bounds
    the passes the model follows, the C loop has no counter. *)
Fixpoint establish_loop (fuel : nat) (s : Z) (target_name : gss_name_t) (oid : gss_OID)
    (req_flags : OM_uint32) (v : negotiation) : M established negotiation :=
  match fuel with
  | O => unfinished
  | S fuel' =>
      v' <- establish_round s target_name oid req_flags v ;;
      if neg_maj_stat v' =? GSS_S_CONTINUE_NEEDED
      then establish_loop fuel' s target_name oid req_flags v'
      else ret v'
  end.

(** [client_establish_context]; [gss_context] and [ret_flags] are what the
    out-parameters hold on entry. *)
Definition client_establish_context (fuel : nat) (s : Z) (service_name : string)
    (req_flags : OM_uint32) (oid : gss_OID) (gss_context : gss_ctx_id_t)
    (ret_flags : OM_uint32) : M established established :=
  let send_tok := {| value := c_bytes service_name ++ [x00];
                     length := strlen service_name + 1 |} in
  imp <- call (fun w => gss_import_name E w send_tok GSS_C_NT_HOSTBASED_SERVICE)
              (fun r => ev_import_name send_tok (fst (fst r))) ;;
  let maj_stat := fst (fst imp) in
  let min_stat := snd (fst imp) in
  let target_name := snd imp in
  when (negb (maj_stat =? GSS_S_COMPLETE)) (
    display_status "parsing name" maj_stat min_stat ;;
    return_ (-1, gss_context, ret_flags)) ;;
  fprintf_stderr "req_flags: %d\n" ;;
  fprintf_stderr "service_name: %s\n" ;;
  v <- establish_loop fuel s target_name oid req_flags
         {| neg_context := GSS_C_NO_CONTEXT;
            neg_ret_flags := ret_flags;
            neg_token_ptr := GSS_C_NO_BUFFER;
            neg_maj_stat := maj_stat |} ;;
  release_name target_name ;;
  ret (0, neg_context v, neg_ret_flags v).

(** [read_file]: fills [in_buf] from the named file, or exits. *)
Definition read_file (file_name : string) : M gss_buffer_desc gss_buffer_desc :=
  fd <- call (fun w => open E w file_name) (ev_open file_name) ;;
  when (fd <? 0) (
    perror "open" ;;
    fprintf_stderr "Couldn't open file %s\n" ;;
    exit 1) ;;
  st <- call (fun w => fstat E w fd) (fun _ => ev_fstat fd) ;;
  when (fst st <? 0) (
    perror "fstat" ;;
    exit 1) ;;
  let in_buf_length := snd st in
  when (in_buf_length =? 0) (
    return_ {| length := 0; value := [] |}) ;;
  p <- call (fun w => malloc E w in_buf_length) (fun _ => ev_malloc in_buf_length) ;;
  when (negb p) (
    fprintf_stderr "Couldn't allocate %ld byte buffer for reading file\n" ;;
    exit 1) ;;
  rd <- call (fun w => read E w fd in_buf_length) (fun r => ev_read fd (fst r)) ;;
  let count := fst rd in
  when (count <? 0) (
    perror "read" ;;
    exit 1) ;;
  when (count <? in_buf_length) (
    fprintf_stderr "Warning, only read in %d bytes, expected %ld\n") ;;
  ret {| length := in_buf_length; value := snd rd |}.

(** The loop of [call_server] over [mech_names->elements], from index [i]. *)
Fixpoint display_mech_names (i : Z) (elements : list gss_OID_desc) : M Z unit :=
  match elements with
  | [] => ret tt
  | e :: rest =>
      r <- oid_to_str (Some e) ;;
      when (negb (fst (fst r) =? GSS_S_COMPLETE)) (
        display_status "converting oid->string" (fst (fst r)) (snd (fst r)) ;;
        return_ (-1)) ;;
      fprintf_stderr "  %ld: %.*s\n" ;;
      release_buffer (snd r) ;;
      display_mech_names (i + 1) rest
  end.

(** [call_server]: 0 on success, -1 on failure.  The locals [context] and
    [ret_flags] are indeterminate until [client_establish_context] writes
    them; they are never read before. *)
Definition call_server (fuel : nat) (host : string) (port : Z) (oid : gss_OID)
    (service_name : string) (req_flag : OM_uint32) (msg : string) (use_file : bool)
    (seal : bool) : M Z Z :=
  (* Open connection *)
  s <- invoke (connect_to_server host port) ;;
  when (s <? 0) (return_ (-1)) ;;
  (* Establish context *)
  est <- invoke (client_establish_context fuel s service_name req_flag oid
                   GSS_C_NO_CONTEXT 0) ;;
  let context := snd (fst est) in
  let ret_flags := snd est in
  when (fst (fst est) <? 0) (
    do_close s ;;
    return_ (-1)) ;;
  display_ctx_flags ret_flags ;;
  (* Get context information *)
  q <- call (fun w => gss_inquire_context E w context)
            (fun q => ev_inquire_context context (inq_maj_stat q)) ;;
  when (negb (inq_maj_stat q =? GSS_S_COMPLETE)) (
    display_status "inquiring context" (inq_maj_stat q) (inq_min_stat q) ;;
    return_ (-1)) ;;
  sn <- call (fun w => gss_display_name E w (inq_src_name q))
             (fun r => ev_display_name (inq_src_name q) (fst (fst (fst r)))) ;;
  when (negb (fst (fst (fst sn)) =? GSS_S_COMPLETE)) (
    display_status "displaying source name" (fst (fst (fst sn))) (snd (fst (fst sn))) ;;
    return_ (-1)) ;;
  let sname := snd (fst sn) in
  let name_type := snd sn in
  tn <- call (fun w => gss_display_name E w (inq_targ_name q))
             (fun r => ev_display_name (inq_targ_name q) (fst (fst (fst r)))) ;;
  when (negb (fst (fst (fst tn)) =? GSS_S_COMPLETE)) (
    display_status "displaying target name" (fst (fst (fst tn))) (snd (fst (fst tn))) ;;
    return_ (-1)) ;;
  let tname := snd (fst tn) in
  fprintf_stderr "%.*s to %.*s, lifetime %d, flags %x, %s, %s\n" ;;
  release_name (inq_src_name q) ;;
  release_name (inq_targ_name q) ;;
  release_buffer sname ;;
  release_buffer tname ;;
  nt <- oid_to_str name_type ;;
  when (negb (fst (fst nt) =? GSS_S_COMPLETE)) (
    display_status "converting oid->string" (fst (fst nt)) (snd (fst nt)) ;;
    return_ (-1)) ;;
  fprintf_stderr "Name type of source name is %.*s.\n" ;;
  release_buffer (snd nt) ;;
  (* Now get the names supported by the mechanism *)
  mn <- call (fun w => gss_inquire_names_for_mech E w (inq_mechanism q))
             (fun r => ev_inquire_names_for_mech (inq_mechanism q) (fst (fst r))) ;;
  when (negb (fst (fst mn) =? GSS_S_COMPLETE)) (
    display_status "inquiring mech names" (fst (fst mn)) (snd (fst mn)) ;;
    return_ (-1)) ;;
  let mech_names := snd mn in
  ms <- oid_to_str (inq_mechanism q) ;;
  when (negb (fst (fst ms) =? GSS_S_COMPLETE)) (
    display_status "converting oid->string" (fst (fst ms)) (snd (fst ms)) ;;
    return_ (-1)) ;;
  fprintf_stderr "Mechanism %.*s supports %ld names\n" ;;
  release_buffer (snd ms) ;;
  display_mech_names 0 mech_names ;;
  call_ (fun w => gss_release_oid_set E w mech_names) ev_release_oid_set ;;
  in_buf <-
    (if use_file
     then invoke (read_file msg)
     else ret {| value := c_bytes msg; length := strlen msg |}) ;;
  (* Seal the message *)
  wr <- call (fun w => gss_wrap E w context (if seal then 1 else 0) GSS_C_QOP_DEFAULT in_buf)
             (fun r => ev_wrap context (if seal then 1 else 0) in_buf (wrap_maj_stat r)
                         (wrap_output r)) ;;
  let state := wrap_conf_state wr in
  let out_buf := wrap_output wr in
  (if negb (wrap_maj_stat wr =? GSS_S_COMPLETE)
   then
     display_status "sealing message" (wrap_maj_stat wr) (wrap_min_stat wr) ;;
     do_close s ;;
     delete_sec_context context false ;;
     return_ (-1)
   else
     when (state =? 0) (
       fprintf_stderr "Warning!  Message not encrypted.\n")) ;;
  (* Send to server *)
  rc <- do_send_token s out_buf ;;
  when (rc <? 0) (
    do_close s ;;
    delete_sec_context context false ;;
    return_ (-1)) ;;
  release_buffer out_buf ;;
  (* Read signature block into out_buf *)
  rv <- do_recv_token s ;;
  when (fst rv <? 0) (
    do_close s ;;
    delete_sec_context context false ;;
    return_ (-1)) ;;
  let out_buf := snd rv in
  (* Verify signature block *)
  vr <- call (fun w => gss_verify_mic E w context in_buf out_buf)
             (fun r => ev_verify_mic context in_buf out_buf (fst r)) ;;
  when (negb (fst vr =? GSS_S_COMPLETE)) (
    display_status "verifying signature" (fst vr) (snd vr) ;;
    do_close s ;;
    delete_sec_context context false ;;
    return_ (-1)) ;;
  release_buffer out_buf ;;
  when use_file (call_ (free E) ev_free) ;;
  printf "Signature verified.\n" ;;
  (* Delete context *)
  d <- delete_sec_context context true ;;
  let context := snd (fst d) in
  let out_buf := snd d in
  when (negb (fst (fst (fst d)) =? GSS_S_COMPLETE)) (
    display_status "deleting context" (fst (fst (fst d))) (snd (fst (fst d))) ;;
    do_close s ;;
    delete_sec_context context false ;;
    return_ (-1)) ;;
  release_buffer out_buf ;;
  do_close s ;;
  ret 0.

Definition isdigit (c : ascii) : bool :=
  ((48 <=? Z.of_nat (nat_of_ascii c)) && (Z.of_nat (nat_of_ascii c) <=? 57))%Z.

(** The loop of [parse_oid] that turns every '.' into a blank. *)
Fixpoint dots_to_blanks (s : string) : string :=
  match s with
  | EmptyString => EmptyString
  | String c rest =>
      String (if Ascii.eqb c "."%char then " "%char else c) (dots_to_blanks rest)
  end.

(** [parse_oid]: the value it gives back is what [*oid] holds afterwards. *)
Definition parse_oid (mechanism : string) (oid : gss_OID) : M gss_OID gss_OID :=
  let leading_digit :=
    match mechanism with
    | String c _ => isdigit c
    | EmptyString => false
    end in
  tok_value <-
    (if leading_digit
     then
       mechstr <- call (fun w => malloc E w (strlen mechanism + 5))
                       (fun _ => ev_malloc (strlen mechanism + 5)) ;;
       when (negb mechstr) (
         printf "Couldn't allocate mechanism scratch!\n" ;;
         return_ oid) ;;
       ret (dots_to_blanks (String.append "{ " (String.append mechanism " }")))
     else ret mechanism) ;;
  let tok := {| value := c_bytes tok_value; length := strlen tok_value |} in
  r <- call (fun w => gss_str_to_oid E w tok oid) (fun r => ev_str_to_oid tok (fst (fst r))) ;;
  let maj_stat := fst (fst r) in
  let min_stat := snd (fst r) in
  when (negb (maj_stat =? GSS_S_COMPLETE)) (
    display_status "str_to_oid" maj_stat min_stat ;;
    return_ (snd r)) ;;
  when leading_digit (call_ (free E) ev_free) ;;
  ret (snd r).

(** The locals of [main] that the argument loop sets. *)
Record options : Type := mk_options {
  mechanism : option string;
  port : Z;
  use_file : bool;
  seal : bool;
  req_flags : OM_uint32
}.

Definition initial_options : options :=
  {| mechanism := None; port := 4444; use_file := false; seal := false; req_flags := 0 |}.

(** The argument loop of [main]: the options and the arguments left. *)
Fixpoint parse_arguments (argv : list string) (o : options) : M Z (options * list string) :=
  match argv with
  | [] => ret (o, [])
  | a :: rest =>
      if String.eqb a "-port" then
        match rest with
        | [] => usage
        | p :: rest' =>
            parse_arguments rest'
              {| mechanism := mechanism o; port := atoi E p mod 65536;
                 use_file := use_file o; seal := seal o; req_flags := req_flags o |}
        end
      else if String.eqb a "-mech" then
        match rest with
        | [] => usage
        | m :: rest' =>
            parse_arguments rest'
              {| mechanism := Some m; port := port o;
                 use_file := use_file o; seal := seal o; req_flags := req_flags o |}
        end
      else if String.eqb a "-d" then
        parse_arguments rest
          {| mechanism := mechanism o; port := port o; use_file := use_file o;
             seal := seal o; req_flags := Z.lor (req_flags o) GSS_C_DELEG_FLAG |}
      else if String.eqb a "-f" then
        parse_arguments rest
          {| mechanism := mechanism o; port := port o; use_file := true;
             seal := seal o; req_flags := req_flags o |}
      else if String.eqb a "-seal" then
        parse_arguments rest
          {| mechanism := mechanism o; port := port o; use_file := use_file o;
             seal := true; req_flags := req_flags o |}
      else if String.eqb a "-mutual" then
        parse_arguments rest
          {| mechanism := mechanism o; port := port o; use_file := use_file o;
             seal := seal o; req_flags := Z.lor (req_flags o) GSS_C_MUTUAL_FLAG |}
      else ret (o, argv)
  end.

(** [main]; [argv] starts with the program name. *)
Definition main (fuel : nat) (argv : list string) : M Z Z :=
  parsed <- parse_arguments (tl argv) initial_options ;;
  let o := fst parsed in
  match snd parsed with
  | [server_host; service_name; msg] =>
      oid <-
        match mechanism o with
        | Some m => invoke (parse_oid m GSS_C_NULL_OID)
        | None => ret GSS_C_NULL_OID
        end ;;
      rc <- invoke (call_server fuel server_host (port o) oid service_name
                      (req_flags o) msg (use_file o) (seal o)) ;;
      when (rc <? 0) (exit 1) ;;
      when (negb (is_null_oid oid)) (
        call_ (fun w => gss_release_oid E w oid) (ev_release_oid oid)) ;;
      ret 0
  | _ => usage
  end.

End Program.

(** *** Reading a run and its trace *)

Definition outcome_of {W R A : Type} (r : outcome R A * W * list event) : outcome R A :=
  fst (fst r).
Definition world_of {W R A : Type} (r : outcome R A * W * list event) : W :=
  snd (fst r).
Definition trace_of {W R A : Type} (r : outcome R A * W * list event) : list event :=
  snd r.

Definition count (p : event -> bool) (t : list event) : nat :=
  List.length (filter p t).

Definition is_init (e : event) : bool :=
  match e with
  | ev_init_sec_context _ _ _ _ _ _ => true
  | _ => false
  end.

Definition is_send (e : event) : bool :=
  match e with
  | ev_send_token _ _ _ => true
  | _ => false
  end.

Definition is_failed_send (e : event) : bool :=
  match e with
  | ev_send_token _ _ rc => rc <? 0
  | _ => false
  end.

Definition is_recv (e : event) : bool :=
  match e with
  | ev_recv_token _ _ => true
  | _ => false
  end.

Definition is_close (e : event) : bool :=
  match e with
  | ev_close _ => true
  | _ => false
  end.

Definition is_delete_sec_context (e : event) : bool :=
  match e with
  | ev_delete_sec_context _ => true
  | _ => false
  end.

Definition is_release_name (name : gss_name_t) (e : event) : bool :=
  match e with
  | ev_release_name n => n =? name
  | _ => false
  end.

Definition is_wrap (e : event) : bool :=
  match e with
  | ev_wrap _ _ _ _ _ => true
  | _ => false
  end.

Definition is_successful_wrap (e : event) : bool :=
  match e with
  | ev_wrap _ _ _ maj_stat _ => maj_stat =? GSS_S_COMPLETE
  | _ => false
  end.

(** The flags of every [gss_init_sec_context] call of the trace are [flags]. *)
Definition init_flags_are (flags : OM_uint32) (e : event) : bool :=
  match e with
  | ev_init_sec_context _ _ _ f _ _ => f =? flags
  | _ => true
  end.

(** The context and input token of the first [gss_init_sec_context] call. *)
Fixpoint first_init (t : list event) : option (gss_ctx_id_t * gss_buffer_t) :=
  match t with
  | [] => None
  | ev_init_sec_context c _ _ _ tok _ :: _ => Some (c, tok)
  | _ :: rest => first_init rest
  end.

(** The major statuses the provider returned, call after call. *)
Fixpoint init_statuses (t : list event) : list OM_uint32 :=
  match t with
  | [] => []
  | ev_init_sec_context _ _ _ _ _ maj_stat :: rest => maj_stat :: init_statuses rest
  | _ :: rest => init_statuses rest
  end.

(** No [recv_token] follows a [gss_init_sec_context] that returned
    [GSS_S_COMPLETE]. *)
Fixpoint no_recv_after_complete (t : list event) : bool :=
  match t with
  | [] => true
  | ev_init_sec_context _ _ _ _ _ maj_stat :: rest =>
      (if maj_stat =? GSS_S_COMPLETE then Nat.eqb (count is_recv rest) 0 else true)
      && no_recv_after_complete rest
  | _ :: rest => no_recv_after_complete rest
  end.

Definition not_encrypted_warning : event :=
  ev_stderr "Warning!  Message not encrypted.\n".

(** [t0] is [t1] with the warning of [call_server] put between a successful
    [gss_wrap] and the [send_token] of its output; or no [gss_wrap]
    succeeded and the traces are the same. *)
Definition warned_and_sent (t0 t1 : list event) : Prop :=
  (existsb is_successful_wrap t0 = false /\ t0 = t1) \/
  (exists pre context conf_req input output s rc post,
      t0 = pre ++ [ev_wrap context conf_req input GSS_S_COMPLETE output;
                   not_encrypted_warning;
                   ev_send_token s output rc] ++ post /\
      t1 = pre ++ [ev_wrap context conf_req input GSS_S_COMPLETE output;
                   ev_send_token s output rc] ++ post).

(** The environment [E] with the [conf_state] that [gss_wrap] reports
    replaced by [state]. *)
Definition with_conf_state {W : Type} (state : Z) (E : Env W) : Env W :=
  {| gethostbyname := gethostbyname E;
     socket := socket E;
     connect := connect E;
     close := close E;
     atoi := atoi E;
     malloc := malloc E;
     free := free E;
     open := open E;
     fstat := fstat E;
     read := read E;
     send_token := send_token E;
     recv_token := recv_token E;
     gss_import_name := gss_import_name E;
     gss_init_sec_context := gss_init_sec_context E;
     gss_release_buffer := gss_release_buffer E;
     gss_release_name := gss_release_name E;
     gss_delete_sec_context := gss_delete_sec_context E;
     gss_inquire_context := gss_inquire_context E;
     gss_display_name := gss_display_name E;
     gss_oid_to_str := gss_oid_to_str E;
     gss_inquire_names_for_mech := gss_inquire_names_for_mech E;
     gss_release_oid_set := gss_release_oid_set E;
     gss_wrap := fun w context conf_req qop input =>
       let (w1, r) := gss_wrap E w context conf_req qop input in
       (w1, {| wrap_maj_stat := wrap_maj_stat r;
               wrap_min_stat := wrap_min_stat r;
               wrap_conf_state := state;
               wrap_output := wrap_output r |});
     gss_verify_mic := gss_verify_mic E;
     gss_str_to_oid := gss_str_to_oid E;
     gss_release_oid := gss_release_oid E |}.


(** A run continued after the events [t]. *)
Definition after {W R A : Type} (t : list event) (r : outcome R A * W * list event)
  : outcome R A * W * list event :=
  (fst (fst r), snd (fst r), t ++ snd r).

(** [Q] holds of the outcome, the final world and the trace of running
    [m] from [w]. *)
Definition wp {W R A : Type} (m : M R A) (w : W)
    (Q : outcome R A -> W -> list event -> Prop) : Prop :=
  Q (outcome_of (m w)) (world_of (m w)) (trace_of (m w)).

(** How often a pass, or the loop, that ended in [o] has released the
    target name: once if it returned, not yet otherwise. *)
Definition released {A : Type} (target_name : gss_name_t) (o : outcome established A)
    (t : list event) : Prop :=
  match o with
  | Returned _ => count (is_release_name target_name) t = 1%nat
  | Exited _ => False
  | Normal _ | Unfinished => count (is_release_name target_name) t = 0%nat
  end.

(** A run of [call_server] that got as far as [gss_wrap] has come back,
    with 0 or -1, and has closed the socket and deleted the context. *)
Definition cleaned_up (o : outcome Z Z) (t : list event) : Prop :=
  existsb is_wrap t = true ->
  (1 <= count is_close t)%nat /\
  (1 <= count is_delete_sec_context t)%nat /\
  (o = Normal 0 \/ o = Returned (-1)).

(** Two runs that agree but for the warning after [gss_wrap]. *)
Definition agree {W R A : Type} (r0 r1 : outcome R A * W * list event) : Prop :=
  outcome_of r0 = outcome_of r1 /\
  world_of r0 = world_of r1 /\
  warned_and_sent (trace_of r0) (trace_of r1).

(** *** More ways to read a trace *)

Definition is_socket_opened (e : event) : bool :=
  match e with
  | ev_socket s => 0 <=? s
  | _ => false
  end.

Definition is_malloc (e : event) : bool :=
  match e with
  | ev_malloc _ => true
  | _ => false
  end.

Definition is_free (e : event) : bool :=
  match e with
  | ev_free => true
  | _ => false
  end.

Definition is_read (e : event) : bool :=
  match e with
  | ev_read _ _ => true
  | _ => false
  end.



Definition is_verify_mic (e : event) : bool :=
  match e with
  | ev_verify_mic _ _ _ _ => true
  | _ => false
  end.

Definition is_verified (e : event) : bool :=
  match e with
  | ev_verify_mic _ _ _ maj_stat => maj_stat =? GSS_S_COMPLETE
  | _ => false
  end.

Definition is_release_oid (e : event) : bool :=
  match e with
  | ev_release_oid _ => true
  | _ => false
  end.

(** The calls [client_establish_context] can make. *)
Definition is_negotiation_event (e : event) : bool :=
  match e with
  | ev_import_name _ _ | ev_init_sec_context _ _ _ _ _ _ | ev_send_token _ _ _
  | ev_recv_token _ _ | ev_release_buffer _ | ev_release_name _
  | ev_delete_sec_context _ | ev_display_status _ _ _ | ev_stdout _ | ev_stderr _ => true
  | _ => false
  end.

(** The words the argument loop of [main] takes for options. *)
Definition is_option (a : string) : bool :=
  String.eqb a "-port" || String.eqb a "-mech" || String.eqb a "-d" || String.eqb a "-f"
  || String.eqb a "-seal" || String.eqb a "-mutual".

Definition usage_message : event :=
  ev_stderr "Usage: gss-client [-port port] [-d] [-seal] [-mutual] host service msg\n".

(** [isdigit(mechanism[0])]. *)
Definition starts_with_digit (mechanism : string) : bool :=
  match mechanism with
  | String c _ => isdigit c
  | EmptyString => false
  end.

(** The bytes of a string as a buffer of its [strlen]. *)
Definition string_buffer (s : string) : gss_buffer_desc :=
  {| value := c_bytes s; length := strlen s |}.

Fixpoint has_dot (s : string) : bool :=
  match s with
  | EmptyString => false
  | String c rest => Ascii.eqb c "."%char || has_dot rest
  end.

(** The options the argument loop can produce: a port that fits [u_short]
    and no flag but delegation and mutual authentication. *)
Definition options_in_range (o : options) : Prop :=
  0 <= port o < 65536 /\
  (req_flags o = 0 \/ req_flags o = GSS_C_DELEG_FLAG \/ req_flags o = GSS_C_MUTUAL_FLAG \/
   req_flags o = Z.lor GSS_C_DELEG_FLAG GSS_C_MUTUAL_FLAG).


(** How a run of the loop ends, from the statuses the provider returned. *)
Definition loop_ends (o : outcome established negotiation) (t : list event) : Prop :=
  forallb (Z.eqb GSS_S_CONTINUE_NEEDED) (removelast (init_statuses t)) = true /\
  match o with
  | Normal _ =>
      last (init_statuses t) GSS_S_CONTINUE_NEEDED = GSS_S_COMPLETE /\
      existsb is_failed_send t = false
  | Returned res =>
      fst (fst res) = -1 /\
      (last (init_statuses t) GSS_S_CONTINUE_NEEDED <> GSS_S_COMPLETE \/
       existsb is_failed_send t = true)
  | Exited _ => False
  | Unfinished =>
      forallb (Z.eqb GSS_S_CONTINUE_NEEDED) (init_statuses t) = true /\
      existsb is_failed_send t = false
  end.

Definition is_import_name (e : event) : bool :=
  match e with
  | ev_import_name _ _ => true
  | _ => false
  end.

Definition is_display_ctx_flags (e : event) : bool :=
  match e with
  | ev_display_ctx_flags _ => true
  | _ => false
  end.

Definition is_socket (e : event) : bool :=
  match e with
  | ev_socket _ => true
  | _ => false
  end.


(** The steps that mark how far a session has come: opening and closing
    the socket, importing the name, showing the flags of the established
    context, wrapping, verifying, deleting the context and releasing the
    mechanism OID. *)
Definition is_session_step (e : event) : bool :=
  is_socket e || is_close e || is_import_name e || is_display_ctx_flags e || is_wrap e
  || is_verify_mic e || is_delete_sec_context e || is_release_oid e.

(** What has become of the socket in a run of [call_server] that came
    back.  Either the connection failed, and what [connect_to_server]
    opened it has closed; or the negotiation failed, and the socket is
    closed; or the context was established and the run ended before
    [gss_wrap], with the socket left open and the context not deleted; or
    it went through [gss_wrap], and the socket is closed and the context
    deleted. *)
Definition socket_accounted (t : list event) : Prop :=
  (count is_import_name t = 0 /\ count is_close t = count is_socket_opened t)%nat \/
  (count is_import_name t = 1 /\ count is_socket_opened t = 1 /\
   count is_display_ctx_flags t = 0 /\ count is_close t = 1)%nat \/
  (count is_import_name t = 1 /\ count is_socket_opened t = 1 /\
   count is_display_ctx_flags t = 1 /\ count is_wrap t = 0 /\
   count is_close t = 0 /\ count is_delete_sec_context t = 0)%nat \/
  (count is_import_name t = 1 /\ count is_socket_opened t = 1 /\
   count is_display_ctx_flags t = 1 /\ count is_wrap t = 1 /\
   count is_close t = 1 /\ 1 <= count is_delete_sec_context t)%nat.

(** What a run of [call_server] with outcome [o] has done. *)
Definition session_post (use_file : bool) (o : outcome Z Z) (t : list event) : Prop :=
  (count is_close t <= 1)%nat /\
  (count is_wrap t <= 1)%nat /\
  (count is_verify_mic t <= 1)%nat /\
  count is_release_oid t = 0%nat /\
  match o with
  | Normal v =>
      v = 0 /\
      count is_successful_wrap t = 1%nat /\
      count is_verified t = 1%nat /\
      count is_close t = 1%nat /\
      count is_delete_sec_context t = 1%nat
  | Returned v => v = -1
  | Exited c =>
      c = 1 /\ use_file = true /\ count is_wrap t = 0%nat /\ count is_close t = 0%nat
  | Unfinished => count is_wrap t = 0%nat
  end /\
  match o with
  | Normal _ | Returned _ => socket_accounted t
  | Exited _ | Unfinished => True
  end.

(** What a run of [main] with outcome [o] has done; [three_words] says
    that the argument loop left a host, a service and a message. *)
Definition main_post (three_words : Prop) (o : outcome Z Z) (t : list event) : Prop :=
  (count is_release_oid t <= 1)%nat /\
  match o with
  | Normal v =>
      v = 0 /\
      three_words /\
      count is_verified t = 1%nat /\
      count is_close t = 1%nat /\
      count is_delete_sec_context t = 1%nat
  | Exited c => c = 1 /\ count is_release_oid t = 0%nat
  | Returned _ => False
  | Unfinished => count is_release_oid t = 0%nat
  end.

End GssClient.

(** ** Scripted environments

    A provider and a peer that answer from a script: the n-th call of
    [gss_init_sec_context], [send_token] and [recv_token] gets the n-th
    reply, whatever its arguments.  The client is deterministic, so the
    replies that a run gets from these three calls are always those of
    some script. *)

Module Scripted.

Import GssClient.
Local Open Scope string_scope.
Local Open Scope list_scope.
Local Open Scope Z_scope.

Record world : Type := mk_world {
  init_calls : nat;
  send_calls : nat;
  recv_calls : nat
}.

Definition initial_world : world :=
  {| init_calls := 0; send_calls := 0; recv_calls := 0 |}.

Record script : Type := mk_script {
  import_status : OM_uint32;
  init_reply : nat -> init_sec_context_result;
  send_rc : nat -> Z;
  recv_reply : nat -> Z * gss_buffer_desc;
  inquire_status : OM_uint32;
  wrap_reply : wrap_result;
  verify_status : OM_uint32;
  delete_status : OM_uint32;
  str_to_oid_status : OM_uint32
}.

Definition GSS_S_FAILURE : OM_uint32 := 851968.   (* 13 << 16 *)

Definition empty_buffer : gss_buffer_desc := {| length := 0; value := [] |}.
Definition token (bs : list byte) : gss_buffer_desc :=
  {| length := Z.of_nat (List.length bs); value := bs |}.

Definition krb5_mech : gss_OID_desc := [x2a; x86; x48; x86; xf7; x12; x01; x02; x02].

Definition scripted (sc : script) : Env world :=
  {| gethostbyname := fun w _ => (w, Some {| h_addrtype := 2; h_addr := [x7f; x00; x00; x01] |});
     socket := fun w => (w, 3);
     connect := fun w _ _ => (w, 0);
     close := fun w _ => w;
     atoi := fun _ => 4444;
     malloc := fun w _ => (w, true);
     free := fun w => w;
     open := fun w _ => (w, 4);
     fstat := fun w _ => (w, (0, 5));
     read := fun w _ _ => (w, (5, c_bytes "hello"));
     send_token := fun w _ _ =>
       ({| init_calls := init_calls w; send_calls := S (send_calls w);
           recv_calls := recv_calls w |},
        send_rc sc (send_calls w));
     recv_token := fun w _ =>
       ({| init_calls := init_calls w; send_calls := send_calls w;
           recv_calls := S (recv_calls w) |},
        recv_reply sc (recv_calls w));
     gss_import_name := fun w _ _ => (w, (import_status sc, 0, 1));
     gss_init_sec_context := fun w _ _ _ _ _ =>
       ({| init_calls := S (init_calls w); send_calls := send_calls w;
           recv_calls := recv_calls w |},
        init_reply sc (init_calls w));
     gss_release_buffer := fun w _ => w;
     gss_release_name := fun w _ => w;
     gss_delete_sec_context := fun w _ _ =>
       (w, (delete_status sc, 0, GSS_C_NO_CONTEXT, empty_buffer));
     gss_inquire_context := fun w _ =>
       (w, {| inq_maj_stat := inquire_status sc; inq_min_stat := 0;
              inq_src_name := 2; inq_targ_name := 1; inq_lifetime := 3600;
              inq_mechanism := Some krb5_mech; inq_context_flags := 4;
              inq_is_local := 1; inq_is_open := 1 |});
     gss_display_name := fun w _ => (w, (0, 0, token (c_bytes "name"), GSS_C_NT_HOSTBASED_SERVICE));
     gss_oid_to_str := fun w _ => (w, (0, 0, token (c_bytes "{ 1 2 840 113554 1 2 2 }")));
     gss_inquire_names_for_mech := fun w _ => (w, (0, 0, [krb5_mech]));
     gss_release_oid_set := fun w _ => w;
     gss_wrap := fun w _ _ _ _ => (w, wrap_reply sc);
     gss_verify_mic := fun w _ _ _ => (w, (verify_status sc, 0));
     gss_str_to_oid := fun w _ oid =>
       (w, (str_to_oid_status sc, 0,
            if str_to_oid_status sc =? GSS_S_COMPLETE then Some krb5_mech else oid));
     gss_release_oid := fun w _ => w |}.

Definition reply (maj_stat : OM_uint32) (context : gss_ctx_id_t) (out : list byte)
  : init_sec_context_result :=
  {| init_maj_stat := maj_stat; init_min_stat := 0; init_context := context;
     init_output_token := token out; init_ret_flags := 4 |}.

(** A 2-round handshake, a sealed message and a valid signature. *)
Definition handshake : script :=
  {| import_status := GSS_S_COMPLETE;
     init_reply := fun n =>
       match n with
       | O => reply GSS_S_CONTINUE_NEEDED (Some 7) [x60; x01]
       | _ => reply GSS_S_COMPLETE (Some 7) []
       end;
     send_rc := fun _ => 0;
     recv_reply := fun _ => (0, token [x6f; x02]);
     inquire_status := GSS_S_COMPLETE;
     wrap_reply := {| wrap_maj_stat := GSS_S_COMPLETE; wrap_min_stat := 0;
                      wrap_conf_state := 1; wrap_output := token [x05; x04] |};
     verify_status := GSS_S_COMPLETE;
     delete_status := GSS_S_COMPLETE;
     str_to_oid_status := GSS_S_COMPLETE |}.

(** [sc] with other replies of [gss_init_sec_context]. *)
Definition with_init (f : nat -> init_sec_context_result) (sc : script) : script :=
  {| import_status := import_status sc; init_reply := f; send_rc := send_rc sc;
     recv_reply := recv_reply sc; inquire_status := inquire_status sc;
     wrap_reply := wrap_reply sc; verify_status := verify_status sc;
     delete_status := delete_status sc; str_to_oid_status := str_to_oid_status sc |}.


(** The provider fails in the second round, the context created in the
    first still in place. *)
Definition fails_in_round_2 : script :=
  with_init (fun n =>
               match n with
               | O => reply GSS_S_CONTINUE_NEEDED (Some 7) [x60; x01]
               | _ => reply GSS_S_FAILURE (Some 7) []
               end) handshake.

(** The provider fails in the first round, before any context exists. *)
Definition fails_in_round_1 : script :=
  with_init (fun _ => reply GSS_S_FAILURE GSS_C_NO_CONTEXT []) handshake.

(** The negotiation succeeds and [gss_inquire_context] then fails. *)
Definition inquire_fails : script :=
  {| import_status := GSS_S_COMPLETE; init_reply := init_reply handshake;
     send_rc := send_rc handshake; recv_reply := recv_reply handshake;
     inquire_status := GSS_S_FAILURE;
     wrap_reply := wrap_reply handshake; verify_status := verify_status handshake;
     delete_status := delete_status handshake;
     str_to_oid_status := str_to_oid_status handshake |}.

(** The first [send_token] fails. *)
Definition send_fails : script :=
  {| import_status := GSS_S_COMPLETE; init_reply := init_reply handshake;
     send_rc := fun _ => -1; recv_reply := recv_reply handshake;
     inquire_status := inquire_status handshake;
     wrap_reply := wrap_reply handshake; verify_status := verify_status handshake;
     delete_status := delete_status handshake;
     str_to_oid_status := str_to_oid_status handshake |}.



(** The service name every example run asks for, and its arguments. *)
Definition example_service : string := "sign@host".

Definition example_establish (sc : script) (fuel : nat)
  : outcome established established * world * list event :=
  client_establish_context (scripted sc) fuel 3 example_service 0 GSS_C_NULL_OID
    GSS_C_NO_CONTEXT 0 initial_world.

Definition example_session (sc : script) (fuel : nat) : outcome Z Z * world * list event :=
  call_server (scripted sc) fuel "host" 4444 GSS_C_NULL_OID example_service 0 "hello"
    false true initial_world.

End Scripted.

(** ** Facts about the token transport *)

Module TokenTransportFacts.

Import TokenTransport.
Local Open Scope N_scope.

Lemma to_N_byte_of_N (n : N) : n < 256 -> Byte.to_N (byte_of_N n) = n.
Proof.
  intros Hn. unfold byte_of_N.
  destruct (Byte.of_N n) as [b|] eqn:Hb.
  - now apply Byte.to_of_N.
  - apply Byte.of_N_None_iff in Hb. lia.
Qed.

(** A length below 2^32 survives its 4-byte big-endian image. *)
Lemma be32_decode_be32 (n : N) : n < 4294967296 -> be32_decode (be32 n) = n.
Proof.
  intros Hn. unfold be32, be32_decode. cbn [fold_left].
  rewrite !to_N_byte_of_N by (apply N.mod_lt; lia).
  change 16777216 with (256 * (256 * 256)). change 65536 with (256 * 256).
  rewrite <- !N.Div0.div_div.
  pose proof (N.div_mod n 256) as H0.
  pose proof (N.div_mod (n / 256) 256) as H1.
  pose proof (N.div_mod (n / 256 / 256) 256) as H2.
  pose proof (N.mod_lt n 256) as L0.
  pose proof (N.mod_lt (n / 256) 256) as L1.
  pose proof (N.mod_lt (n / 256 / 256) 256) as L2.
  assert (L3 : n / 256 / 256 / 256 < 256).
  { apply N.Div0.div_lt_upper_bound. apply N.Div0.div_lt_upper_bound.
    apply N.Div0.div_lt_upper_bound. lia. }
  rewrite (N.mod_small _ _ L3).
  generalize dependent (n / 256 / 256 / 256). intros q3.
  generalize dependent (n / 256 / 256 mod 256). intros r2.
  generalize dependent (n / 256 / 256). intros q2.
  generalize dependent (n / 256 mod 256). intros r1.
  generalize dependent (n / 256). intros q1.
  generalize dependent (n mod 256). intros r0. intros. lia.
Qed.

Lemma len_app (a b : list byte) : len (a ++ b) = len a + len b.
Proof. unfold len. rewrite length_app. lia. Qed.

Lemma len_be32 (n : N) : len (be32 n) = 4.
Proof. reflexivity. Qed.



Lemma write_all_fits (s : stream) (bs : list byte) :
  len bs <= room s ->
  write_all s bs =
  Some {| pending := pending s ++ bs; room := room s - len bs; reads := reads s |}.
Proof. intros H. unfold write_all. apply N.leb_le in H. now rewrite H. Qed.

Lemma read_exact_prefix (s : stream) (a b : list byte) :
  pending s = a ++ b ->
  read_exact s (len a) =
  (Some a, {| pending := b; room := room s; reads := reads s ++ [len a] |}).
Proof.
  intros Hp. unfold read_exact. rewrite Hp, len_app.
  assert (H : (len a <=? len a + len b) = true) by (apply N.leb_le; lia).
  rewrite H. unfold len. rewrite Nnat.Nat2N.id.
  rewrite firstn_app, Nat.sub_diag, firstn_all, firstn_O, app_nil_r.
  rewrite skipn_app, Nat.sub_diag, skipn_all, skipn_O. reflexivity.
Qed.



(** C6: for every byte sequence [b] whose length is within the bound (a
    bound the 4-byte length field can hold), [send_token] on a fresh
    stream with room for the frame writes the big-endian length followed
    by [b], and [recv_token] on that stream gives back [b] exactly,
    leaving nothing unread. *)
Theorem framing_round_trip :
  forall (bound cap : N) (b : list byte),
    len b <= bound ->
    bound < 4294967296 ->
    4 + len b <= cap ->
    exists s' : stream,
      send_token (fresh cap) b = Ok s' /\
      pending s' = be32 (len b) ++ b /\
      fst (recv_token bound s') = Ok b /\
      pending (snd (recv_token bound s')) = [].
Proof.
  intros bound cap b Hb Hbound Hcap.
  unfold send_token.
  rewrite write_all_fits by (rewrite len_be32; cbn; lia).
  rewrite write_all_fits by (rewrite len_be32; cbn; lia).
  eexists. split; [reflexivity|]. cbn [pending]. split; [reflexivity|].
  unfold recv_token.
  match goal with
  | |- context [read_exact ?s0 4] =>
      replace (read_exact s0 4)
        with (Some (be32 (len b)),
              {| pending := b; room := room s0; reads := reads s0 ++ [4] |})
        by (symmetry; exact (read_exact_prefix s0 (be32 (len b)) b eq_refl))
  end.
  cbv zeta. rewrite be32_decode_be32 by lia.
  assert (Hlt : (bound <? len b) = false) by (apply N.ltb_ge; lia). rewrite Hlt.
  rewrite (read_exact_prefix _ b []) by (cbn; now rewrite app_nil_r).
  auto.
Qed.

(** The 5 bytes of "hello" under a bound of 65536. *)
Lemma framing_round_trip_witness :
  len [x68; x65; x6c; x6c; x6f] <= 65536 /\
  65536 < 4294967296 /\
  4 + len [x68; x65; x6c; x6c; x6f] <= 64 /\
  exists s' : stream,
    send_token (fresh 64) [x68; x65; x6c; x6c; x6f] = Ok s' /\
    pending s' = be32 (len [x68; x65; x6c; x6c; x6f]) ++ [x68; x65; x6c; x6c; x6f] /\
    fst (recv_token 65536 s') = Ok [x68; x65; x6c; x6c; x6f] /\
    pending (snd (recv_token 65536 s')) = [].
Proof.
  split; [vm_compute; discriminate|]. split; [reflexivity|].
  split; [vm_compute; discriminate|].
  apply (framing_round_trip 65536 64 [x68; x65; x6c; x6c; x6f]).
  - vm_compute; discriminate.
  - reflexivity.
  - vm_compute; discriminate.
Defined.

End TokenTransportFacts.

(** ** Facts about the client *)

Module GssClientFacts.

Import GssClient.
Local Open Scope string_scope.
Local Open Scope list_scope.
Local Open Scope Z_scope.

(** *** Traces *)

Lemma count_app (p : event -> bool) (t1 t2 : list event) :
  count p (t1 ++ t2) = (count p t1 + count p t2)%nat.
Proof. unfold count. now rewrite filter_app, length_app. Qed.

Lemma count_cons (p : event -> bool) (e : event) (t : list event) :
  count p (e :: t) = ((if p e then 1 else 0) + count p t)%nat.
Proof. unfold count. cbn. now destruct (p e). Qed.

Lemma count_nil (p : event -> bool) : count p [] = 0%nat.
Proof. reflexivity. Qed.

Lemma first_init_app (t1 t2 : list event) :
  first_init (t1 ++ t2) =
  match first_init t1 with
  | Some x => Some x
  | None => first_init t2
  end.
Proof.
  induction t1 as [|e t1 IH]; cbn; [reflexivity|].
  destruct e; auto.
Qed.

Lemma no_recv_after_complete_quiet (t1 t2 : list event) :
  count is_init t1 = 0%nat ->
  no_recv_after_complete (t1 ++ t2) = no_recv_after_complete t2.
Proof.
  induction t1 as [|e t1 IH]; intros Hi; [reflexivity|].
  rewrite count_cons in Hi. destruct e; cbn in *; try discriminate; apply IH; lia.
Qed.

Lemma continue_is_not_complete (maj_stat : OM_uint32) :
  (maj_stat =? GSS_S_CONTINUE_NEEDED) = true -> (maj_stat =? GSS_S_COMPLETE) = false.
Proof.
  unfold GSS_S_CONTINUE_NEEDED, GSS_S_COMPLETE. intros H.
  apply Z.eqb_eq in H. subst. reflexivity.
Qed.

(** *** Rules for [wp], one per statement form *)

Section Wp.

Context {W : Type}.

Lemma wp_ret {R A} (a : A) (w : W) Q : Q (Normal a) w [] -> wp (ret (R := R) a) w Q.
Proof. exact (fun H => H). Qed.

Lemma wp_return {R A} (r : R) (w : W) Q :
  Q (Returned r) w [] -> wp (return_ (A := A) r) w Q.
Proof. exact (fun H => H). Qed.

Lemma wp_exit {R A} (c : Z) (w : W) Q : Q (Exited c) w [] -> wp (@exit W R A c) w Q.
Proof. exact (fun H => H). Qed.

Lemma wp_unfinished {R A} (w : W) Q : Q Unfinished w [] -> wp (@unfinished W R A) w Q.
Proof. exact (fun H => H). Qed.

Lemma wp_emit {R} (e : event) (w : W) Q : Q (Normal tt) w [e] -> wp (emit (R := R) e) w Q.
Proof. exact (fun H => H). Qed.

Lemma wp_call {R A} (op : W -> W * A) (ev : A -> event) (w : W) Q :
  (forall w1 a, op w = (w1, a) -> Q (Normal a) w1 [ev a]) -> wp (call (R := R) op ev) w Q.
Proof.
  intros H. unfold wp, call, outcome_of, world_of, trace_of.
  destruct (op w) as [w1 a] eqn:Hop. cbn. now apply H.
Qed.

Lemma wp_call_ {R} (op : W -> W) (e : event) (w : W) Q :
  Q (Normal tt) (op w) [e] -> wp (call_ (R := R) op e) w Q.
Proof. exact (fun H => H). Qed.

Lemma wp_bind {R A B} (m : M R A) (k : A -> M R B) (w : W) Q :
  wp m w (fun o w1 t1 =>
            match o with
            | Normal a => wp (k a) w1 (fun o2 w2 t2 => Q o2 w2 (t1 ++ t2))
            | Returned r => Q (Returned r) w1 t1
            | Exited c => Q (Exited c) w1 t1
            | Unfinished => Q Unfinished w1 t1
            end) ->
  wp (bind m k) w Q.
Proof.
  unfold wp, bind, outcome_of, world_of, trace_of.
  destruct (m w) as [[o w1] t1]. cbn.
  destruct o; cbn; auto.
  destruct (k a w1) as [[o2 w2] t2]. cbn. auto.
Qed.

Lemma wp_when {R} (c : bool) (m : M R unit) (w : W) Q :
  (c = true -> wp m w Q) -> (c = false -> Q (Normal tt) w []) -> wp (when c m) w Q.
Proof. destruct c; cbn; intros H1 H2; [apply H1 | apply H2]; reflexivity. Qed.

Lemma wp_if {R A} (c : bool) (m1 m2 : M R A) (w : W) Q :
  (c = true -> wp m1 w Q) -> (c = false -> wp m2 w Q) -> wp (if c then m1 else m2) w Q.
Proof. destruct c; intros H1 H2; [apply H1 | apply H2]; reflexivity. Qed.

Lemma wp_invoke {R R'} (body : M R R) (w : W) (Q : outcome R' R -> W -> list event -> Prop) :
  wp body w (fun o w1 t =>
               match o with
               | Normal r | Returned r => Q (Normal r) w1 t
               | Exited c => Q (Exited c) w1 t
               | Unfinished => Q Unfinished w1 t
               end) ->
  wp (invoke body) w Q.
Proof.
  unfold wp, invoke, outcome_of, world_of, trace_of.
  destruct (body w) as [[o w1] t]. destruct o; cbn; auto.
Qed.

Lemma wp_weaken {R A} (m : M R A) (w : W) (Q Q' : outcome R A -> W -> list event -> Prop) :
  wp m w Q -> (forall o w1 t, Q o w1 t -> Q' o w1 t) -> wp m w Q'.
Proof. unfold wp. auto. Qed.


End Wp.

Ltac wp_step :=
  lazymatch goal with
  | |- wp (bind _ _) _ _ => apply wp_bind
  | |- wp (ret _) _ _ => apply wp_ret
  | |- wp (return_ _) _ _ => apply wp_return
  | |- wp (exit _) _ _ => apply wp_exit
  | |- wp unfinished _ _ => apply wp_unfinished
  | |- wp (emit _) _ _ => apply wp_emit
  | |- wp (call _ _) _ _ => apply wp_call; intros ? ? ?
  | |- wp (call_ _ _) _ _ => apply wp_call_
  | |- wp (when _ _) _ _ => apply wp_when; intros ?
  | |- wp (if _ then _ else _) _ _ => apply wp_if; intros ?
  | |- wp (match ?x with Some _ => _ | None => _ end) _ _ => destruct x eqn:?
  end.

Ltac wp_unfold :=
  unfold release_buffer, release_name, printf, fprintf_stderr, perror, display_status,
    display_ctx_flags, delete_sec_context, do_send_token, do_recv_token, do_close,
    oid_to_str, usage.

(** Follows every path of a loop-free body. *)
Ltac wp_run := repeat (wp_unfold; wp_step).

Ltac count_events :=
  rewrite ?count_app, ?count_cons, ?count_nil; cbn -[Z.eqb Z.ltb]; rewrite ?Z.eqb_refl.

(** Rewrites with the tests taken on the path. *)
Ltac use_tests :=
  repeat match goal with
         | H : _ && _ = true |- _ => apply andb_true_iff in H as [? ?]
         | H : negb _ = true |- _ => apply negb_true_iff in H
         | H : negb _ = false |- _ => apply negb_false_iff in H
         end;
  repeat match goal with
         | H : _ = true |- _ => rewrite H
         | H : _ = false |- _ => rewrite H
         end;
  rewrite ?andb_false_r, ?andb_true_r.

(** *** One pass of the loop, and the loop *)

Section Establish.

Context {W : Type} (E : Env W).
Variables (s : Z) (target_name : gss_name_t) (oid : gss_OID) (req_flags : OM_uint32).

Lemma round_releases_name (v : negotiation) (w : W) :
  wp (establish_round E s target_name oid req_flags v) w
     (fun o _ t => released target_name o t).
Proof.
  unfold establish_round. wp_run; cbn [released]; count_events; reflexivity.
Qed.

Lemma loop_releases_name (fuel : nat) :
  forall (v : negotiation) (w : W),
    wp (establish_loop E fuel s target_name oid req_flags v) w
       (fun o _ t => released target_name o t).
Proof.
  induction fuel as [|fuel IH]; intros v w; cbn [establish_loop].
  - wp_run. reflexivity.
  - apply wp_bind. eapply wp_weaken; [apply round_releases_name|].
    intros o w1 t1 Hr. destruct o; cbn [released] in Hr;
      [ | exact Hr | contradiction | exact Hr ].
    apply wp_if; intros _.
    + eapply wp_weaken; [apply IH|]. intros o2 w2 t2 H2.
      destruct o2; cbn [released] in *; rewrite ?count_app; try lia.
    + wp_run. cbn [released]. rewrite count_app. cbn. lia.
Qed.

Lemma round_init_arguments (v : negotiation) (w : W) :
  wp (establish_round E s target_name oid req_flags v) w
     (fun _ _ t =>
        forallb (init_flags_are (Z.lor req_flags GSS_C_REPLAY_FLAG)) t = true /\
        first_init t = Some (neg_context v, neg_token_ptr v)).
Proof.
  unfold establish_round.
  wp_run; split; cbn -[Z.eqb]; rewrite ?Z.eqb_refl; cbn; congruence.
Qed.

Lemma loop_init_arguments (fuel : nat) :
  forall (v : negotiation) (w : W),
    wp (establish_loop E fuel s target_name oid req_flags v) w
       (fun _ _ t =>
          forallb (init_flags_are (Z.lor req_flags GSS_C_REPLAY_FLAG)) t = true /\
          first_init t = match fuel with
                         | O => None
                         | S _ => Some (neg_context v, neg_token_ptr v)
                         end).
Proof.
  induction fuel as [|fuel IH]; intros v w; cbn [establish_loop].
  - wp_run. split; reflexivity.
  - apply wp_bind. eapply wp_weaken; [apply round_init_arguments|].
    intros o w1 t1 [Hf H1]. destruct o; auto; try (split; assumption).
    apply wp_if; intros _.
    + eapply wp_weaken; [apply IH|]. intros o2 w2 t2 [Hf2 _].
      rewrite forallb_app, first_init_app, Hf, Hf2, H1. auto.
    + wp_run. rewrite app_nil_r. auto.
Qed.

(** The sends and receives of one pass, from what the provider returned. *)
Lemma round_send_recv (v : negotiation) (w : W) :
  wp (establish_round E s target_name oid req_flags v) w
     (fun _ _ t =>
        let r := snd (gss_init_sec_context E w (neg_context v) target_name oid
                        (Z.lor req_flags GSS_C_REPLAY_FLAG) (neg_token_ptr v)) in
        count is_send t = (if length (init_output_token r) =? 0 then 0%nat else 1%nat) /\
        count is_recv t =
          (if (init_maj_stat r =? GSS_S_CONTINUE_NEEDED) && negb (existsb is_failed_send t)
           then 1%nat else 0%nat)).
Proof.
  unfold establish_round.
  wp_run; cbv zeta;
    match goal with H : gss_init_sec_context _ _ _ _ _ _ _ = _ |- _ => rewrite H end;
    cbn [snd]; count_events; use_tests; cbn -[Z.eqb Z.ltb]; use_tests; auto.
Qed.

(** What one pass sends is the provider's output token, on the socket it
    also receives from. *)
Lemma round_sends_output (v : negotiation) (w : W) :
  wp (establish_round E s target_name oid req_flags v) w
     (fun _ _ t =>
        let r := snd (gss_init_sec_context E w (neg_context v) target_name oid
                        (Z.lor req_flags GSS_C_REPLAY_FLAG) (neg_token_ptr v)) in
        Forall (fun e => match e with
                         | ev_send_token s' tok _ => s' = s /\ tok = init_output_token r
                         | ev_recv_token s' _ => s' = s
                         | _ => True
                         end) t).
Proof.
  unfold establish_round.
  wp_run; cbv zeta;
    match goal with H : gss_init_sec_context _ _ _ _ _ _ _ = _ |- _ => rewrite H end;
    cbn [snd app]; repeat constructor.
Qed.

(** One pass starts with the provider call; nothing is received after it
    unless it asked to continue. *)
Lemma round_shape (v : negotiation) (w : W) :
  wp (establish_round E s target_name oid req_flags v) w
     (fun o _ t =>
        exists maj_stat rest,
          t = ev_init_sec_context (neg_context v) target_name oid
                (Z.lor req_flags GSS_C_REPLAY_FLAG) (neg_token_ptr v) maj_stat :: rest /\
          count is_init rest = 0%nat /\
          ((maj_stat =? GSS_S_CONTINUE_NEEDED) = false -> count is_recv rest = 0%nat) /\
          match o with
          | Normal v' => neg_maj_stat v' = maj_stat
          | _ => True
          end).
Proof.
  unfold establish_round.
  wp_run; eexists; eexists; cbn [app];
    (split; [try rewrite <- Heqo; reflexivity|]);
    count_events; use_tests; cbn; repeat split; auto; try discriminate.
Qed.

Lemma loop_no_recv_after_complete (fuel : nat) :
  forall (v : negotiation) (w : W),
    wp (establish_loop E fuel s target_name oid req_flags v) w
       (fun _ _ t => no_recv_after_complete t = true).
Proof.
  induction fuel as [|fuel IH]; intros v w; cbn [establish_loop].
  - wp_run. reflexivity.
  - apply wp_bind. eapply wp_weaken; [apply round_shape|].
    intros o w1 t1 (maj & rest & -> & Hinit & Hrecv & Ho).
    assert (Hround : no_recv_after_complete
                       (ev_init_sec_context (neg_context v) target_name oid
                          (Z.lor req_flags GSS_C_REPLAY_FLAG) (neg_token_ptr v) maj :: rest)
                     = true).
    { cbn [no_recv_after_complete].
      rewrite <- (app_nil_r rest) at 2. rewrite no_recv_after_complete_quiet by assumption.
      cbn. rewrite andb_true_r.
      destruct (maj =? GSS_S_COMPLETE) eqn:Hc; [|reflexivity].
      rewrite Hrecv; [reflexivity|].
      destruct (maj =? GSS_S_CONTINUE_NEEDED) eqn:Hn; [|reflexivity].
      apply continue_is_not_complete in Hn. congruence. }
    destruct o; try exact Hround. subst maj.
    apply wp_if; intros Hcont.
    + eapply wp_weaken; [apply IH|]. intros o2 w2 t2 H2.
      cbn [app no_recv_after_complete].
      rewrite (continue_is_not_complete _ Hcont). cbn.
      now rewrite no_recv_after_complete_quiet.
    + wp_run. now rewrite app_nil_r.
Qed.

Lemma round_no_wrap (v : negotiation) (w : W) :
  wp (establish_round E s target_name oid req_flags v) w
     (fun _ _ t => existsb is_wrap t = false).
Proof. unfold establish_round. wp_run; reflexivity. Qed.

Lemma loop_no_wrap (fuel : nat) :
  forall (v : negotiation) (w : W),
    wp (establish_loop E fuel s target_name oid req_flags v) w
       (fun _ _ t => existsb is_wrap t = false).
Proof.
  induction fuel as [|fuel IH]; intros; cbn [establish_loop].
  - wp_run. reflexivity.
  - apply wp_bind. eapply wp_weaken; [apply round_no_wrap|].
    intros o w1 t1 H1. destruct o; auto.
    apply wp_if; intros _.
    + eapply wp_weaken; [apply IH|]. intros o2 w2 t2 H2.
      now rewrite existsb_app, H1, H2.
    + wp_run. now rewrite app_nil_r.
Qed.

(** A pass deletes the context exactly when the provider failed, the send
    (if any) went through, and there is no context to delete. *)
Lemma round_deletes_only_no_context (v : negotiation) (w : W) :
  wp (establish_round E s target_name oid req_flags v) w
     (fun _ _ t =>
        let r := snd (gss_init_sec_context E w (neg_context v) target_name oid
                        (Z.lor req_flags GSS_C_REPLAY_FLAG) (neg_token_ptr v)) in
        count is_delete_sec_context t =
          (if negb (init_maj_stat r =? GSS_S_COMPLETE)
              && negb (init_maj_stat r =? GSS_S_CONTINUE_NEEDED)
              && negb (existsb is_failed_send t)
              && is_no_context (init_context r)
           then 1%nat else 0%nat)).
Proof.
  unfold establish_round.
  wp_run; cbv zeta;
    match goal with H : gss_init_sec_context _ _ _ _ _ _ _ = _ |- _ => rewrite H end;
    cbn [snd]; count_events; use_tests; cbn -[Z.eqb Z.ltb]; use_tests;
    rewrite ?andb_false_r; cbn; auto;
    match goal with
    | |- context [?x =? GSS_S_COMPLETE] => destruct (x =? GSS_S_COMPLETE)
    end; cbn in *; auto;
    repeat match goal with
           | H : _ && _ = false |- _ => rewrite ?andb_true_r in H; cbn in H
           | H : _ = false |- _ => rewrite H in *
           end; try discriminate.
Qed.

(** A run of the loop that returns does not depend on the budget. *)
Lemma establish_loop_fuel (fuel : nat) :
  forall (fuel' : nat) (v : negotiation) (w : W),
    outcome_of (establish_loop E fuel s target_name oid req_flags v w) <> Unfinished ->
    (fuel <= fuel')%nat ->
    establish_loop E fuel' s target_name oid req_flags v w =
    establish_loop E fuel s target_name oid req_flags v w.
Proof.
  induction fuel as [|fuel IH]; intros fuel' v w Hret Hle.
  - cbn in Hret. congruence.
  - destruct fuel' as [|fuel']; [lia|]. cbn [establish_loop] in *.
    unfold bind in *.
    destruct (establish_round E s target_name oid req_flags v w) as [[o w1] t1].
    destruct o; try reflexivity.
    destruct (neg_maj_stat a =? GSS_S_CONTINUE_NEEDED); [|reflexivity].
    rewrite (IH fuel' a w1); [reflexivity| |lia].
    destruct (establish_loop E fuel s target_name oid req_flags a w1) as [[o2 w2] t2].
    exact Hret.
Qed.

End Establish.

(** *** [client_establish_context] *)

Lemma no_recv_after_complete_app (t1 t2 : list event) :
  no_recv_after_complete t1 = true ->
  count is_recv t2 = 0%nat ->
  count is_init t2 = 0%nat ->
  no_recv_after_complete (t1 ++ t2) = true.
Proof.
  intros H1 Hr Hi. induction t1 as [|e t1 IH].
  - cbn. rewrite <- (app_nil_r t2). now rewrite no_recv_after_complete_quiet.
  - destruct e; cbn in *; auto.
    apply andb_true_iff in H1 as [Ha Hb]. apply andb_true_iff. split; auto.
    destruct (maj_stat =? GSS_S_COMPLETE); auto.
    apply Nat.eqb_eq in Ha. apply Nat.eqb_eq. rewrite count_app. lia.
Qed.

Section Function.

Context {W : Type} (E : Env W).

Lemma establish_releases_name (fuel : nat) (s : Z) (service_name : string)
    (req_flags : OM_uint32) (oid : gss_OID) (gss_context : gss_ctx_id_t)
    (ret_flags : OM_uint32) (w : W) :
  wp (client_establish_context E fuel s service_name req_flags oid gss_context ret_flags) w
     (fun o _ t =>
        forall w1 min_stat target_name,
          gss_import_name E w
            {| value := c_bytes service_name ++ [x00]; length := strlen service_name + 1 |}
            GSS_C_NT_HOSTBASED_SERVICE = (w1, (GSS_S_COMPLETE, min_stat, target_name)) ->
          o <> Unfinished ->
          count (is_release_name target_name) t = 1%nat).
Proof.
  unfold client_establish_context. cbv zeta.
  apply wp_bind. apply wp_call. intros w1 imp Himp.
  apply wp_bind. apply wp_when; intros Hmaj.
  - wp_run. intros w1' m tn Heq. rewrite Himp in Heq. inversion Heq; subst.
    cbn in Hmaj. discriminate.
  - wp_run. eapply wp_weaken; [apply loop_releases_name|].
    intros o w2 t Hr. destruct o; cbn [released] in Hr.
    + wp_run. intros w1' m tn Heq _. rewrite Himp in Heq. inversion Heq; subst.
      cbn [snd] in *. count_events. rewrite Hr. reflexivity.
    + intros w1' m tn Heq _. rewrite Himp in Heq. inversion Heq; subst.
      cbn [snd] in *. count_events. rewrite Hr. reflexivity.
    + contradiction.
    + intros w1' m tn Heq Hne. congruence.
Qed.

Lemma establish_init_arguments (fuel : nat) (s : Z) (service_name : string)
    (req_flags : OM_uint32) (oid : gss_OID) (gss_context : gss_ctx_id_t)
    (ret_flags : OM_uint32) (w : W) :
  wp (client_establish_context E fuel s service_name req_flags oid gss_context ret_flags) w
     (fun _ _ t =>
        forallb (init_flags_are (Z.lor req_flags GSS_C_REPLAY_FLAG)) t = true /\
        (first_init t = None \/ first_init t = Some (GSS_C_NO_CONTEXT, GSS_C_NO_BUFFER))).
Proof.
  unfold client_establish_context. cbv zeta. wp_run; try (split; [reflexivity|now left]).
  eapply wp_weaken; [apply loop_init_arguments|]. intros o w2 t [Hf H1].
  assert (Hfirst : first_init t = None \/
                   first_init t = Some (GSS_C_NO_CONTEXT, GSS_C_NO_BUFFER))
    by (destruct fuel; cbn in H1; auto).
  destruct o; wp_run; cbn [app forallb init_flags_are first_init andb];
    rewrite ?forallb_app, ?first_init_app, ?Hf; cbn;
    (split; [reflexivity|]); destruct Hfirst as [-> | ->]; auto.
Qed.

Lemma establish_no_recv_after_complete (fuel : nat) (s : Z) (service_name : string)
    (req_flags : OM_uint32) (oid : gss_OID) (gss_context : gss_ctx_id_t)
    (ret_flags : OM_uint32) (w : W) :
  wp (client_establish_context E fuel s service_name req_flags oid gss_context ret_flags) w
     (fun _ _ t => no_recv_after_complete t = true).
Proof.
  unfold client_establish_context. cbv zeta. wp_run; try reflexivity.
  eapply wp_weaken; [apply loop_no_recv_after_complete|]. intros o w2 t Hl.
  destruct o; wp_run; cbn [app no_recv_after_complete]; try exact Hl.
  apply no_recv_after_complete_app; [exact Hl|reflexivity|reflexivity].
Qed.

Lemma client_establish_context_no_wrap fuel s service_name req_flags oid c f (w : W) :
  wp (client_establish_context E fuel s service_name req_flags oid c f) w
     (fun _ _ t => existsb is_wrap t = false).
Proof.
  unfold client_establish_context. cbv zeta. wp_run; try reflexivity.
  eapply wp_weaken; [apply loop_no_wrap|]. intros o w2 t Hloop.
  destruct o; wp_run; rewrite ?existsb_app; cbn; rewrite ?Hloop; reflexivity.
Qed.

Lemma bind_returns {R A B} (m : M R A) (k k' : A -> M R B) (w : W) :
  (forall a w1, outcome_of (k a w1) <> Unfinished -> k' a w1 = k a w1) ->
  outcome_of (bind m k w) <> Unfinished ->
  bind m k' w = bind m k w.
Proof.
  unfold bind. destruct (m w) as [[o w1] t1]. destruct o; auto.
  intros Hk Hret. rewrite Hk; [reflexivity|].
  destruct (k a w1) as [[o2 w2] t2]. exact Hret.
Qed.

(** A run of [client_establish_context] that returns is the same under
    every larger budget: the budget of the model only cuts off runs that
    are still in the loop. *)
Lemma client_establish_context_fuel (fuel fuel' : nat) (s : Z) (service_name : string)
    (req_flags : OM_uint32) (oid : gss_OID) (gss_context : gss_ctx_id_t)
    (ret_flags : OM_uint32) (w : W) :
  outcome_of (client_establish_context E fuel s service_name req_flags oid
                gss_context ret_flags w) <> Unfinished ->
  (fuel <= fuel')%nat ->
  client_establish_context E fuel' s service_name req_flags oid gss_context ret_flags w =
  client_establish_context E fuel s service_name req_flags oid gss_context ret_flags w.
Proof.
  intros Hret Hle. revert Hret. unfold client_establish_context. cbv zeta.
  do 4 (apply bind_returns; intros ? ?).
  intros Hret. unfold bind in *.
  rewrite (establish_loop_fuel E s _ oid req_flags fuel fuel'); [reflexivity| |exact Hle].
  destruct (establish_loop E fuel s _ oid req_flags _ _) as [[o_loop w_loop] t_loop].
  destruct o_loop; try discriminate. contradiction.
Qed.

End Function.

(** C7: every [gss_init_sec_context] call that [client_establish_context]
    makes, in whatever round, passes exactly [req_flags | GSS_C_REPLAY_FLAG];
    and the first call, when there is one, passes no context
    ([GSS_C_NO_CONTEXT]) and no input token ([GSS_C_NO_BUFFER]). *)
Theorem init_sec_context_arguments :
  forall (W : Type) (E : Env W) (fuel : nat) (s : Z) (service_name : string)
         (req_flags : OM_uint32) (oid : gss_OID) (gss_context : gss_ctx_id_t)
         (ret_flags : OM_uint32) (w : W),
    let t := trace_of (client_establish_context E fuel s service_name req_flags oid
                         gss_context ret_flags w) in
    forallb (init_flags_are (Z.lor req_flags GSS_C_REPLAY_FLAG)) t = true /\
    (first_init t = None \/ first_init t = Some (GSS_C_NO_CONTEXT, GSS_C_NO_BUFFER)).
Proof. intros. apply (establish_init_arguments E). Qed.

(** C9: when [gss_import_name] succeeded, every run of
    [client_establish_context] that comes back (send failure, provider
    failure, receive failure or success) has released the imported target
    name exactly once. *)
Theorem target_name_released_once :
  forall (W : Type) (E : Env W) (fuel : nat) (s : Z) (service_name : string)
         (req_flags : OM_uint32) (oid : gss_OID) (gss_context : gss_ctx_id_t)
         (ret_flags : OM_uint32) (w w1 : W) (min_stat : OM_uint32) (target_name : gss_name_t),
    gss_import_name E w
      {| value := c_bytes service_name ++ [x00]; length := strlen service_name + 1 |}
      GSS_C_NT_HOSTBASED_SERVICE = (w1, (GSS_S_COMPLETE, min_stat, target_name)) ->
    outcome_of (client_establish_context E fuel s service_name req_flags oid
                  gss_context ret_flags w) <> Unfinished ->
    count (is_release_name target_name)
      (trace_of (client_establish_context E fuel s service_name req_flags oid
                   gss_context ret_flags w)) = 1%nat.
Proof.
  intros W E fuel s service_name rf oid c f w w1 min_stat target_name Himp Hret.
  exact (establish_releases_name E fuel s service_name rf oid c f w w1 min_stat target_name
           Himp Hret).
Qed.

(** The 2-round handshake of the script releases name 1 once. *)
Lemma target_name_released_once_witness :
  gss_import_name (Scripted.scripted Scripted.handshake) Scripted.initial_world
    {| value := c_bytes Scripted.example_service ++ [x00];
       length := strlen Scripted.example_service + 1 |}
    GSS_C_NT_HOSTBASED_SERVICE = (Scripted.initial_world, (GSS_S_COMPLETE, 0, 1)) /\
  outcome_of (Scripted.example_establish Scripted.handshake 5) <> Unfinished /\
  count (is_release_name 1) (trace_of (Scripted.example_establish Scripted.handshake 5))
    = 1%nat.
Proof.
  split; [reflexivity|]. split; [vm_compute; discriminate|].
  apply (target_name_released_once Scripted.world (Scripted.scripted Scripted.handshake) 5 3
           Scripted.example_service 0 GSS_C_NULL_OID GSS_C_NO_CONTEXT 0
           Scripted.initial_world Scripted.initial_world 0 1).
  - reflexivity.
  - vm_compute; discriminate.
Defined.

(** C4 (as the code has it): in every pass of the loop the output token of
    [gss_init_sec_context] is sent if and only if its length is not zero,
    and nothing else is sent; a token is received if and only if the
    provider returned [GSS_S_CONTINUE_NEEDED] and the send of this pass did
    not fail; and in a whole run of [client_establish_context] no
    [recv_token] follows a provider call that returned [GSS_S_COMPLETE]. *)
Theorem send_and_receive_discipline :
  forall (W : Type) (E : Env W) (s : Z) (oid : gss_OID) (req_flags : OM_uint32),
    (forall (target_name : gss_name_t) (v : negotiation) (w : W),
        let r := snd (gss_init_sec_context E w (neg_context v) target_name oid
                        (Z.lor req_flags GSS_C_REPLAY_FLAG) (neg_token_ptr v)) in
        let t := trace_of (establish_round E s target_name oid req_flags v w) in
        count is_send t = (if length (init_output_token r) =? 0 then 0%nat else 1%nat) /\
        count is_recv t =
          (if (init_maj_stat r =? GSS_S_CONTINUE_NEEDED) && negb (existsb is_failed_send t)
           then 1%nat else 0%nat) /\
        Forall (fun e => match e with
                         | ev_send_token s' tok _ => s' = s /\ tok = init_output_token r
                         | ev_recv_token s' _ => s' = s
                         | _ => True
                         end) t) /\
    (forall (fuel : nat) (service_name : string) (gss_context : gss_ctx_id_t)
            (ret_flags : OM_uint32) (w : W),
        no_recv_after_complete
          (trace_of (client_establish_context E fuel s service_name req_flags oid
                       gss_context ret_flags w)) = true).
Proof.
  intros W E s oid rf. split.
  - intros target_name v w. cbv zeta.
    pose proof (round_send_recv E s target_name oid rf v w) as [Hs Hr].
    pose proof (round_sends_output E s target_name oid rf v w) as Hall.
    repeat split; assumption.
  - intros. apply (establish_no_recv_after_complete E).
Qed.

(** The provider asks to continue, the send of its token fails: the
    function returns -1 and no token is received, although the provider
    returned [GSS_S_CONTINUE_NEEDED]. *)
Lemma no_receive_after_failed_send :
  init_statuses (trace_of (Scripted.example_establish Scripted.send_fails 5))
    = [GSS_S_CONTINUE_NEEDED] /\
  count is_recv (trace_of (Scripted.example_establish Scripted.send_fails 5)) = 0%nat /\
  outcome_of (Scripted.example_establish Scripted.send_fails 5) = Returned (-1, Some 7, 4).
Proof. vm_compute. repeat split. Qed.

(** *** Runs against a script, and the length of the negotiation *)

Section ScriptedRuns.

Import Scripted.

Variables (sc : script) (s : Z) (target_name : gss_name_t) (oid : gss_OID)
  (req_flags : OM_uint32).





End ScriptedRuns.




(** The 2-round handshake, the sealed message and its signature: the
    session returns 0 after two tokens each way in the negotiation and one
    each way for the message, with the context deleted and the socket
    closed once. *)
Example handshake_session_succeeds :
  outcome_of (Scripted.example_session Scripted.handshake 5) = Normal 0 /\
  init_statuses (trace_of (Scripted.example_session Scripted.handshake 5))
    = [GSS_S_CONTINUE_NEEDED; GSS_S_COMPLETE] /\
  count is_send (trace_of (Scripted.example_session Scripted.handshake 5)) = 2%nat /\
  count is_recv (trace_of (Scripted.example_session Scripted.handshake 5)) = 2%nat /\
  count is_delete_sec_context (trace_of (Scripted.example_session Scripted.handshake 5))
    = 1%nat /\
  count is_close (trace_of (Scripted.example_session Scripted.handshake 5)) = 1%nat.
Proof. vm_compute. repeat split. Qed.

(** *** Where the cleanup is missing *)

(** C1 (the code departs from it): the negotiation succeeds, then
    [gss_inquire_context] fails; [call_server] returns -1 having neither
    closed the socket nor deleted the security context. *)
Theorem call_server_leaks_when_inquire_fails :
  outcome_of (Scripted.example_session Scripted.inquire_fails 5) = Returned (-1) /\
  init_statuses (trace_of (Scripted.example_session Scripted.inquire_fails 5))
    = [GSS_S_CONTINUE_NEEDED; GSS_S_COMPLETE] /\
  count is_close (trace_of (Scripted.example_session Scripted.inquire_fails 5)) = 0%nat /\
  count is_delete_sec_context (trace_of (Scripted.example_session Scripted.inquire_fails 5))
    = 0%nat.
Proof. vm_compute. repeat split. Qed.

(** C3 (the code departs from it): when the provider fails in the second
    round, the context created in the first round is handed back undeleted;
    when it fails before any context exists, [gss_delete_sec_context] is
    called on [GSS_C_NO_CONTEXT]. *)
Theorem partial_context_is_not_deleted :
  outcome_of (Scripted.example_establish Scripted.fails_in_round_2 5)
    = Returned (-1, Some 7, 4) /\
  count is_delete_sec_context (trace_of (Scripted.example_establish Scripted.fails_in_round_2 5))
    = 0%nat /\
  outcome_of (Scripted.example_establish Scripted.fails_in_round_1 5)
    = Returned (-1, GSS_C_NO_CONTEXT, 4) /\
  filter is_delete_sec_context
    (trace_of (Scripted.example_establish Scripted.fails_in_round_1 5))
    = [ev_delete_sec_context GSS_C_NO_CONTEXT].
Proof. vm_compute. repeat split. Qed.

(** *** The confidentiality state that [gss_wrap] reports *)

Section NoWrap.

Context {W : Type} (E : Env W).

Lemma no_wrap_no_successful_wrap (t : list event) :
  existsb is_wrap t = false -> existsb is_successful_wrap t = false.
Proof.
  induction t as [|e t IH]; [reflexivity|]. cbn. intros H.
  apply orb_false_iff in H as [He Ht]. rewrite (IH Ht).
  destruct e; try reflexivity; discriminate.
Qed.

Lemma connect_to_server_no_wrap host tcp_port (w : W) :
  wp (connect_to_server E host tcp_port) w
     (fun _ _ t => existsb is_wrap t = false).
Proof. unfold connect_to_server. wp_run; reflexivity. Qed.

Lemma read_file_no_wrap file_name (w : W) :
  wp (read_file E file_name) w (fun _ _ t => existsb is_wrap t = false).
Proof. unfold read_file. wp_run; reflexivity. Qed.

Lemma display_mech_names_no_wrap (elements : list gss_OID_desc) :
  forall i (w : W),
    wp (display_mech_names E i elements) w
       (fun _ _ t => existsb is_wrap t = false).
Proof.
  induction elements as [|e rest IH]; intros; cbn [display_mech_names].
  - wp_run. reflexivity.
  - wp_run; try reflexivity.
    eapply wp_weaken; [apply IH|]. intros o w2 t Hrest.
    rewrite ?existsb_app; cbn; auto.
Qed.

Lemma invoke_no_wrap {R R'} (body : M R R) (w : W) :
  wp body w (fun _ _ t => existsb is_wrap t = false) ->
  wp (invoke (R' := R') body) w (fun _ _ t => existsb is_wrap t = false).
Proof.
  intros H. apply wp_invoke. eapply wp_weaken; [exact H|]. intros o w1 t Ht.
  destruct o; exact Ht.
Qed.

Lemma warned_and_sent_prefix (t t0 t1 : list event) :
  existsb is_successful_wrap t = false ->
  warned_and_sent t0 t1 -> warned_and_sent (t ++ t0) (t ++ t1).
Proof.
  intros Ht [[Hn ->] | (pre & c & q & i & o & s & rc & post & -> & ->)].
  - left. split; [|reflexivity]. now rewrite existsb_app, Ht, Hn.
  - right. exists (t ++ pre), c, q, i, o, s, rc, post.
    now rewrite <- !app_assoc.
Qed.

Lemma agree_same {R A : Type} (r : outcome R A * W * list event) :
  existsb is_successful_wrap (trace_of r) = false -> agree r r.
Proof. intros H. repeat split. left. auto. Qed.

(** Two programs that start with the same step, a step that does not
    wrap, agree when what follows agrees. *)
Lemma agree_bind {R A B} (m0 m1 : M R A) (k0 k1 : A -> M R B) (w : W) :
  m0 w = m1 w ->
  existsb is_successful_wrap (trace_of (m0 w)) = false ->
  (forall a w1, agree (k0 a w1) (k1 a w1)) ->
  agree (bind m0 k0 w) (bind m1 k1 w).
Proof.
  intros Hm Hq Hk. unfold bind. rewrite <- Hm.
  destruct (m0 w) as [[o w1] t] eqn:Hr. cbn [trace_of snd] in Hq.
  destruct o; try (apply agree_same; exact Hq).
  specialize (Hk a w1). destruct Hk as (Ho & Hw & Ht).
  destruct (k0 a w1) as [[o0 w0'] t0], (k1 a w1) as [[o1 w1'] t1].
  unfold agree, outcome_of, world_of, trace_of in *. cbn in *.
  repeat split; auto. now apply warned_and_sent_prefix.
Qed.

Lemma bind_call_run {R A B} (op : W -> W * A) (ev : A -> event) (k : A -> M R B) (w : W) :
  bind (call op ev) k w = after [ev (snd (op w))] (k (snd (op w)) (fst (op w))).
Proof.
  unfold bind, call, after. destruct (op w) as [w1 a]. cbn.
  destruct (k a w1) as [[o w2] t2]. reflexivity.
Qed.

Lemma agree_after {R A} (t : list event) (r0 r1 : outcome R A * W * list event) :
  existsb is_successful_wrap t = false -> agree r0 r1 -> agree (after t r0) (after t r1).
Proof.
  intros Ht (Ho & Hw & Hs). unfold agree, after, outcome_of, world_of, trace_of in *.
  cbn. repeat split; auto. now apply warned_and_sent_prefix.
Qed.

(** From a successful [gss_wrap] on: the warning, then the same run. *)
Lemma agree_warning {R A} (context : gss_ctx_id_t) (conf_req : Z)
    (input output : gss_buffer_desc) (s : Z) (op : W -> W * Z) (K0 K1 : Z -> M R A) (w : W) :
  (forall rc w1, K0 rc w1 = K1 rc w1) ->
  agree
    (after [ev_wrap context conf_req input GSS_S_COMPLETE output]
       (bind (when true (fprintf_stderr "Warning!  Message not encrypted.\n"))
             (fun _ => bind (call op (ev_send_token s output)) K0) w))
    (after [ev_wrap context conf_req input GSS_S_COMPLETE output]
       (bind (when false (fprintf_stderr "Warning!  Message not encrypted.\n"))
             (fun _ => bind (call op (ev_send_token s output)) K1) w)).
Proof.
  intros HK. unfold when, fprintf_stderr, emit, ret.
  unfold bind at 1 3. rewrite !bind_call_run. rewrite <- HK.
  destruct (K0 (snd (op w)) (fst (op w))) as [[o w2] t2].
  unfold agree, after, outcome_of, world_of, trace_of. cbn.
  repeat split. right.
  exists [], context, conf_req, input, output, s, (snd (op w)), t2. split; reflexivity.
Qed.

End NoWrap.

(** The steps of [call_server] before [gss_wrap] do not wrap. *)
Ltac quiet_prefix :=
  try apply no_wrap_no_successful_wrap;
  lazymatch goal with
  | |- existsb is_wrap (trace_of (?m ?w)) = false =>
      change (wp m w (fun _ _ t => existsb is_wrap t = false))
  end;
  first
    [ apply invoke_no_wrap;
      first [ apply connect_to_server_no_wrap
            | apply client_establish_context_no_wrap
            | apply read_file_no_wrap ]
    | apply display_mech_names_no_wrap
    | solve [ wp_run; first [ reflexivity | apply invoke_no_wrap; apply read_file_no_wrap ] ] ].

(** C8: whether [gss_wrap] reports the message as encrypted or not makes no
    difference to [call_server] but the warning.  The run in which the
    provider reports [conf_state = 0] and the run in which it reports 1
    end with the same outcome (the same return value) in the same world;
    their traces are the same when no [gss_wrap] succeeded, and otherwise
    differ exactly by the warning, written between the successful
    [gss_wrap] and the [send_token] of its output token, which takes place
    in both. *)
Theorem unencrypted_wrap_only_warns :
  forall (W : Type) (E : Env W) (fuel : nat) (host : string) (tcp_port : Z) (oid : gss_OID)
         (service_name : string) (req_flag : OM_uint32) (msg : string)
         (from_file sealed : bool) (w : W),
    let r0 := call_server (with_conf_state 0 E) fuel host tcp_port oid service_name req_flag
                msg from_file sealed w in
    let r1 := call_server (with_conf_state 1 E) fuel host tcp_port oid service_name req_flag
                msg from_file sealed w in
    outcome_of r0 = outcome_of r1 /\
    world_of r0 = world_of r1 /\
    warned_and_sent (trace_of r0) (trace_of r1).
Proof.
  intros W E fuel host tcp_port oid service_name req_flag msg from_file sealed w r0 r1.
  subst r0 r1.
  change (agree (call_server (with_conf_state 0 E) fuel host tcp_port oid service_name req_flag
                   msg from_file sealed w)
                (call_server (with_conf_state 1 E) fuel host tcp_port oid service_name req_flag
                   msg from_file sealed w)).
  unfold call_server. cbv zeta.
  do 29 (apply agree_bind; [reflexivity | quiet_prefix | intros ? ?]).
  rewrite !bind_call_run. cbn [gss_wrap with_conf_state].
  match goal with
  | |- context [gss_wrap E ?w0 ?c ?q ?p ?i] =>
      destruct (gss_wrap E w0 c q p i) as [w_wrap r]
  end.
  cbn [fst snd wrap_maj_stat wrap_min_stat wrap_conf_state wrap_output].
  destruct (wrap_maj_stat r =? GSS_S_COMPLETE) eqn:Hmaj; cbn [negb].
  - apply Z.eqb_eq in Hmaj. rewrite Hmaj.
    apply agree_warning. intros. reflexivity.
  - apply agree_after; [cbn; now rewrite Hmaj|].
    apply agree_same.
    lazymatch goal with
    | |- existsb is_successful_wrap (trace_of (?m ?w)) = false =>
        change (wp m w (fun _ _ t => existsb is_successful_wrap t = false))
    end.
    wp_run. reflexivity.
Qed.

(** *** The cleanup from [gss_wrap] on *)

Lemma cleaned_up_bind {W : Type} {A B : Type} (m : M Z A) (k : A -> M Z B) (w : W)
    (Q : outcome Z B -> list event -> Prop) :
  existsb is_wrap (trace_of (m w)) = false ->
  (forall o t1 t2, existsb is_wrap t1 = false -> Q o t2 -> Q o (t1 ++ t2)) ->
  (forall o t, existsb is_wrap t = false -> Q o t) ->
  (forall a w1, wp (k a) w1 (fun o _ t => Q o t)) ->
  wp (bind m k) w (fun o _ t => Q o t).
Proof.
  intros Hq Happ Hnone Hk. apply wp_bind. unfold wp at 1.
  destruct (outcome_of (m w)); try (apply Hnone; exact Hq).
  eapply wp_weaken; [apply Hk|]. intros o w2 t2 H2. cbv beta in H2. now apply Happ.
Qed.

(** Every path of [call_server] through [gss_wrap] closes the socket and
    deletes the context before it returns: the paths of lines 421-475 do
    what the earlier ones leave out. *)
Lemma call_server_cleans_up_from_wrap_on :
  forall (W : Type) (E : Env W) (fuel : nat) (host : string) (tcp_port : Z) (oid : gss_OID)
         (service_name : string) (req_flag : OM_uint32) (msg : string)
         (from_file sealed : bool) (w : W),
    wp (call_server E fuel host tcp_port oid service_name req_flag msg from_file sealed) w
       (fun o _ t => cleaned_up o t).
Proof.
  intros W E fuel host tcp_port oid service_name req_flag msg from_file sealed w.
  assert (Happ : forall (o : outcome Z Z) t1 t2,
             existsb is_wrap t1 = false -> cleaned_up o t2 -> cleaned_up o (t1 ++ t2)).
  { intros o t1 t2 H1 H2 Hw. rewrite existsb_app, H1 in Hw. cbn in Hw.
    destruct (H2 Hw) as (Hc & Hd & Ho). rewrite !count_app. repeat split; auto; lia. }
  assert (Hnone : forall (o : outcome Z Z) t, existsb is_wrap t = false -> cleaned_up o t).
  { intros o t H Hw. congruence. }
  unfold call_server. cbv zeta.
  do 29 (apply cleaned_up_bind;
         [quiet_prefix | exact Happ | exact Hnone | intros ? ?]).
  wp_run; intros _; count_events; repeat split; auto; lia.
Qed.

(** *** A mechanism string that is not an OID *)

Section Main.

Context {W : Type} (E : Env W).

(** The argument loop calls nothing; it prints only when it exits. *)
Lemma parse_arguments_pure (n : nat) :
  forall (argv : list string) (o : options) (w : W),
    (List.length argv <= n)%nat ->
    wp (parse_arguments E argv o) w
       (fun oc w' t => w' = w /\ forall x, oc = Normal x -> t = []).
Proof.
  induction n as [|n IH]; intros argv o w Hlen.
  - destruct argv; [|cbn in Hlen; lia]. cbn. wp_run. auto.
  - destruct argv as [|a rest]; cbn [parse_arguments]; [wp_run; auto|].
    cbn [List.length] in Hlen.
    repeat lazymatch goal with
           | |- wp (if _ then _ else _) _ _ => apply wp_if; intros _
           | |- wp (match ?l with [] => _ | _ :: _ => _ end) _ _ =>
               destruct l; cbn [List.length] in Hlen
           end;
      try (apply IH; lia);
      wp_run; split; auto; discriminate.
Qed.


End Main.



End GssClientFacts.

(** ** More facts about the client: the functions around the claims *)

Module GssClientMore.

Import GssClient.
Import GssClientFacts.
Local Open Scope string_scope.
Local Open Scope list_scope.
Local Open Scope Z_scope.

(** Turns the tests taken on a path into inequalities. *)
Ltac z_tests :=
  repeat match goal with
         | H : negb _ = true |- _ => apply negb_true_iff in H
         | H : negb _ = false |- _ => apply negb_false_iff in H
         | H : (_ <? _) = true |- _ => apply Z.ltb_lt in H
         | H : (_ <? _) = false |- _ => apply Z.ltb_ge in H
         | H : (_ =? _) = true |- _ => apply Z.eqb_eq in H
         | H : (_ =? _) = false |- _ => apply Z.eqb_neq in H
         end.

Lemma count_one_iff (p : event -> bool) (e : event) :
  count p [e] = (if p e then 1 else 0)%nat.
Proof. unfold count. cbn. now destruct (p e). Qed.

(** *** [connect_to_server] *)

(** X1: [connect_to_server] gives back either the descriptor that
    [socket] returned, non-negative, connected and left open, or -1; when it
    gives back -1 every descriptor it opened has been closed again, and it
    closes nothing else. *)
Theorem connect_to_server_result :
  forall (W : Type) (E : Env W) (host : string) (tcp_port : Z) (w : W),
    let r := connect_to_server E host tcp_port w in
    match outcome_of r with
    | Normal s =>
        0 <= s /\ In (ev_socket s) (trace_of r) /\
        (exists rc, 0 <= rc /\ In (ev_connect s rc) (trace_of r)) /\
        count is_close (trace_of r) = 0%nat
    | Returned v =>
        v = -1 /\
        count is_close (trace_of r) = count is_socket_opened (trace_of r) /\
        Forall (fun e => match e with
                         | ev_close s => In (ev_socket s) (trace_of r)
                         | _ => True
                         end) (trace_of r)
    | Exited _ | Unfinished => False
    end.
Proof.
  intros W E host tcp_port w. cbv zeta.
  change (wp (connect_to_server E host tcp_port) w
            (fun o _ t =>
               match o with
               | Normal s =>
                   0 <= s /\ In (ev_socket s) t /\
                   (exists rc, 0 <= rc /\ In (ev_connect s rc) t) /\
                   count is_close t = 0%nat
               | Returned v =>
                   v = -1 /\
                   count is_close t = count is_socket_opened t /\
                   Forall (fun e => match e with
                                    | ev_close s => In (ev_socket s) t
                                    | _ => True
                                    end) t
               | Exited _ | Unfinished => False
               end)).
  unfold connect_to_server. wp_run; z_tests; cbn [app];
    repeat match goal with |- _ /\ _ => split end;
    try reflexivity; try assumption;
    try (cbn; auto; fail);
    try (repeat constructor; cbn; auto; fail);
    try (count_events;
         match goal with |- context [0 <=? ?x] => destruct (Z.leb_spec 0 x) end;
         (reflexivity || lia));
    try (eexists; split; [eassumption | cbn; auto]).
Qed.

(** *** [read_file] *)

(** X2: [read_file] never comes back with an error: it either exits with
    status 1 or hands back a buffer whose length is the size [fstat]
    reported, whatever [read] delivered.  For an empty file the buffer is
    empty and nothing is allocated or read; otherwise it allocates once and
    reads once. *)
Theorem read_file_result :
  forall (W : Type) (E : Env W) (file_name : string) (w : W),
    let r := read_file E file_name w in
    let opened := open E w file_name in
    let st_size := snd (snd (fstat E (fst opened) (snd opened))) in
    match outcome_of r with
    | Normal b | Returned b =>
        length b = st_size /\
        (st_size = 0 ->
         value b = [] /\ count is_malloc (trace_of r) = 0%nat /\
         count is_read (trace_of r) = 0%nat) /\
        (st_size <> 0 ->
         count is_malloc (trace_of r) = 1%nat /\ count is_read (trace_of r) = 1%nat)
    | Exited c => c = 1
    | Unfinished => False
    end.
Proof.
  intros W E file_name w. cbv zeta.
  change (wp (read_file E file_name) w
            (fun o _ t =>
               let opened := open E w file_name in
               let st_size := snd (snd (fstat E (fst opened) (snd opened))) in
               match o with
               | Normal b | Returned b =>
                   length b = st_size /\
                   (st_size = 0 ->
                    value b = [] /\ count is_malloc t = 0%nat /\ count is_read t = 0%nat) /\
                   (st_size <> 0 -> count is_malloc t = 1%nat /\ count is_read t = 1%nat)
               | Exited c => c = 1
               | Unfinished => False
               end)).
  unfold read_file. cbv zeta.
  wp_run; cbv zeta; try reflexivity;
    repeat match goal with
           | H : open E _ _ = _ |- _ => rewrite H; clear H
           | H : fstat E _ _ = _ |- _ => cbn [fst snd] in H |- *; rewrite H; clear H
           end;
    cbn [fst snd length value]; z_tests;
    (split; [congruence|]); split; intros; try congruence;
    count_events; auto.
Qed.

(** *** [parse_oid] *)

Lemma strlen_append (a b : string) : strlen (String.append a b) = strlen a + strlen b.
Proof.
  unfold strlen. induction a as [|c a IH]; cbn [String.append String.length]; lia.
Qed.

Lemma strlen_dots_to_blanks (s : string) : strlen (dots_to_blanks s) = strlen s.
Proof.
  unfold strlen. induction s as [|c s IH]; cbn [dots_to_blanks String.length]; lia.
Qed.

Lemma dots_to_blanks_has_no_dot (s : string) : has_dot (dots_to_blanks s) = false.
Proof.
  induction s as [|c s IH]; [reflexivity|]. cbn [dots_to_blanks has_dot].
  rewrite IH, orb_false_r. destruct (Ascii.eqb c ".") eqn:Hc; [reflexivity|exact Hc].
Qed.

(** X3: what [parse_oid] hands to [gss_str_to_oid].  A mechanism that
    starts with a digit is passed as its braced form with every '.' turned
    into a blank, and the scratch area asked of [malloc], [strlen(mechanism)
    + 5] bytes, is exactly that string and its NUL; any other mechanism is
    passed as it is, and nothing is allocated. *)
Theorem parse_oid_string :
  forall (W : Type) (E : Env W) (m : string) (oid : gss_OID) (w : W),
    let str := if starts_with_digit m
               then dots_to_blanks (String.append "{ " (String.append m " }"))
               else m in
    Forall (fun e => match e with
                     | ev_str_to_oid tok _ => tok = string_buffer str
                     | ev_malloc size =>
                         starts_with_digit m = true /\ size = strlen str + 1
                     | _ => True
                     end) (trace_of (parse_oid E m oid w)) /\
    (starts_with_digit m = true -> has_dot str = false /\ strlen str = strlen m + 4).
Proof.
  intros W E m oid w. cbv zeta. split.
  - change (wp (parse_oid E m oid) w
              (fun _ _ t =>
                 Forall (fun e => match e with
                                  | ev_str_to_oid tok _ =>
                                      tok = string_buffer
                                              (if starts_with_digit m
                                               then dots_to_blanks
                                                      (String.append "{ " (String.append m " }"))
                                               else m)
                                  | ev_malloc size =>
                                      starts_with_digit m = true /\
                                      size = strlen (if starts_with_digit m
                                                     then dots_to_blanks
                                                            (String.append "{ "
                                                               (String.append m " }"))
                                                     else m) + 1
                                  | _ => True
                                  end) t)).
    unfold parse_oid. cbv zeta. fold (starts_with_digit m).
    destruct (starts_with_digit m) eqn:Hd;
      wp_run; try discriminate; cbn [app];
      repeat first [apply Forall_nil | apply Forall_cons];
      try exact I; try reflexivity;
      (split; [reflexivity|]);
      rewrite strlen_dots_to_blanks, !strlen_append;
      change (strlen "{ ") with 2; change (strlen " }") with 2; lia.
  - intros Hd. rewrite Hd. split; [apply dots_to_blanks_has_no_dot|].
    rewrite strlen_dots_to_blanks, !strlen_append.
    change (strlen "{ ") with 2. change (strlen " }") with 2. lia.
Qed.

(** X4: [parse_oid] always comes back to its caller (it never exits).  It
    allocates once exactly when the mechanism starts with a digit; what it
    allocated is freed when it comes back after a successful
    [gss_str_to_oid], and is not freed on its early returns. *)
Theorem parse_oid_allocation :
  forall (W : Type) (E : Env W) (m : string) (oid : gss_OID) (w : W),
    let r := parse_oid E m oid w in
    count is_malloc (trace_of r) = (if starts_with_digit m then 1%nat else 0%nat) /\
    match outcome_of r with
    | Normal _ =>
        count is_free (trace_of r) = count is_malloc (trace_of r) /\
        Exists (fun e => match e with
                         | ev_str_to_oid _ maj_stat => maj_stat = GSS_S_COMPLETE
                         | _ => False
                         end) (trace_of r)
    | Returned _ => count is_free (trace_of r) = 0%nat
    | Exited _ | Unfinished => False
    end.
Proof.
  intros W E m oid w. cbv zeta.
  change (wp (parse_oid E m oid) w
            (fun o _ t =>
               count is_malloc t = (if starts_with_digit m then 1%nat else 0%nat) /\
               match o with
               | Normal _ =>
                   count is_free t = count is_malloc t /\
                   Exists (fun e => match e with
                                    | ev_str_to_oid _ maj_stat => maj_stat = GSS_S_COMPLETE
                                    | _ => False
                                    end) t
               | Returned _ => count is_free t = 0%nat
               | Exited _ | Unfinished => False
               end)).
  unfold parse_oid. cbv zeta. fold (starts_with_digit m).
  destruct (starts_with_digit m) eqn:Hd;
    wp_run; try discriminate; z_tests; cbn [app];
    (split; [reflexivity|]); try reflexivity;
    (split; [reflexivity|]);
    first [ apply Exists_cons_hd; assumption
          | apply Exists_cons_tl; apply Exists_cons_hd; assumption ].
Qed.

(** *** The argument loop of [main] *)

Section Arguments.

Context {W : Type} (E : Env W).

Lemma parse_arguments_keeps_range (n : nat) :
  forall (argv : list string) (o : options) (w : W),
    (List.length argv <= n)%nat ->
    options_in_range o ->
    wp (parse_arguments E argv o) w
       (fun oc _ t =>
          match oc with
          | Normal (o', rest) =>
              options_in_range o' /\
              (exists taken, argv = taken ++ rest) /\
              match rest with
              | [] => True
              | a :: _ => is_option a = false
              end
          | Exited c => c = 1 /\ t = [usage_message]
          | Returned _ | Unfinished => False
          end).
Proof.
  induction n as [|n IH]; intros argv o w Hlen Ho.
  - destruct argv; [|cbn in Hlen; lia]. cbn. wp_run.
    split; [exact Ho|]. split; [now exists []|exact I].
  - destruct argv as [|a rest]; cbn [parse_arguments].
    { wp_run. split; [exact Ho|]. split; [now exists []|exact I]. }
    cbn [List.length] in Hlen. destruct Ho as [Hport Hflags].
    assert (Hstep : forall (skipped : list string) (rest' : list string) (o1 : options),
               a :: rest = skipped ++ rest' ->
               (List.length rest' <= n)%nat ->
               options_in_range o1 ->
               wp (parse_arguments E rest' o1) w
                  (fun oc _ t =>
                     match oc with
                     | Normal (o', rest0) =>
                         options_in_range o' /\
                         (exists taken, a :: rest = taken ++ rest0) /\
                         match rest0 with
                         | [] => True
                         | a0 :: _ => is_option a0 = false
                         end
                     | Exited c => c = 1 /\ t = [usage_message]
                     | Returned _ | Unfinished => False
                     end)).
    { intros skipped rest' o1 Heq Hlen' Ho1.
      eapply wp_weaken; [apply (IH rest' o1 w Hlen' Ho1)|].
      intros oc w1 t Hpost. destruct oc as [[o' rest0]| | |]; auto.
      destruct Hpost as (Hr & (taken & Ht) & Hhead). split; [exact Hr|]. split; [|exact Hhead].
      exists (skipped ++ taken). now rewrite <- app_assoc, <- Ht. }
    apply wp_if; intros Hp; [destruct rest as [|p rest']|].
    + wp_run. split; reflexivity.
    + apply (Hstep [a; p]); [reflexivity|cbn [List.length] in Hlen; lia|].
      split; cbn [port req_flags]; [apply Z.mod_pos_bound; lia|exact Hflags].
    + apply wp_if; intros Hm; [destruct rest as [|m rest']|].
      * wp_run. split; reflexivity.
      * apply (Hstep [a; m]); [reflexivity|cbn [List.length] in Hlen; lia|].
        split; [exact Hport|exact Hflags].
      * apply wp_if; intros Hd.
        { apply (Hstep [a]); [reflexivity|lia|]. split; [exact Hport|]. cbn [req_flags].
          destruct Hflags as [-> | [-> | [-> | ->]]]; cbn; auto. }
        apply wp_if; intros Hf.
        { apply (Hstep [a]); [reflexivity|lia|]. split; [exact Hport|exact Hflags]. }
        apply wp_if; intros Hs.
        { apply (Hstep [a]); [reflexivity|lia|]. split; [exact Hport|exact Hflags]. }
        apply wp_if; intros Hmu.
        { apply (Hstep [a]); [reflexivity|lia|]. split; [exact Hport|]. cbn [req_flags].
          destruct Hflags as [-> | [-> | [-> | ->]]]; cbn; auto. }
        wp_run. split; [split; assumption|]. split; [now exists []|].
        unfold is_option. now rewrite Hp, Hm, Hd, Hf, Hs, Hmu.
Qed.

End Arguments.


(** *** [client_establish_context]: what its return value means *)

Lemma init_statuses_app (t1 t2 : list event) :
  init_statuses (t1 ++ t2) = init_statuses t1 ++ init_statuses t2.
Proof.
  induction t1 as [|e t1 IH]; [reflexivity|].
  destruct e; cbn; rewrite ?IH; reflexivity.
Qed.

Lemma forallb_removelast {A : Type} (p : A -> bool) (l : list A) :
  forallb p l = true -> forallb p (removelast l) = true.
Proof.
  induction l as [|a l IH]; [reflexivity|]. cbn [forallb]. intros H.
  apply andb_true_iff in H as [Ha Hl]. destruct l as [|b l]; [reflexivity|].
  change (removelast (a :: b :: l)) with (a :: removelast (b :: l)).
  cbn [forallb]. now rewrite Ha, IH.
Qed.

Section ReturnValue.

Context {W : Type} (E : Env W).
Variables (s : Z) (target_name : gss_name_t) (oid : gss_OID) (req_flags : OM_uint32).

(** One pass: its one provider status, and how it ends. *)
Lemma round_status (v : negotiation) (w : W) :
  wp (establish_round E s target_name oid req_flags v) w
     (fun o _ t =>
        exists maj_stat,
          init_statuses t = [maj_stat] /\
          match o with
          | Normal v' =>
              neg_maj_stat v' = maj_stat /\
              existsb is_failed_send t = false /\
              ((maj_stat =? GSS_S_CONTINUE_NEEDED) = false -> maj_stat = GSS_S_COMPLETE)
          | Returned res =>
              fst (fst res) = -1 /\
              (maj_stat <> GSS_S_COMPLETE \/ existsb is_failed_send t = true)
          | Exited _ | Unfinished => False
          end).
Proof.
  unfold establish_round.
  wp_run; eexists; (split; [reflexivity|]); cbn -[Z.eqb Z.ltb];
    repeat match goal with
           | H : (_ <? 0) = _ |- _ => rewrite H
           end;
    cbn; use_tests;
    repeat match goal with |- _ /\ _ => split end;
    try reflexivity; auto;
    try (intros; z_tests; congruence);
    try (left; z_tests; unfold GSS_S_CONTINUE_NEEDED, GSS_S_COMPLETE in *; congruence);
    try (intros _;
         match goal with
         | H : negb (?x =? GSS_S_COMPLETE) && negb _ = false, H' : (_ =? _) = false |- _ =>
             rewrite H' in H; cbn in H; rewrite andb_true_r in H;
             apply negb_false_iff in H; apply Z.eqb_eq in H; exact H
         end).
Qed.

Lemma loop_status (fuel : nat) :
  forall (v : negotiation) (w : W),
    wp (establish_loop E fuel s target_name oid req_flags v) w
       (fun o _ t => loop_ends o t).
Proof.
  induction fuel as [|fuel IH]; intros v w; cbn [establish_loop].
  - wp_run. repeat split.
  - apply wp_bind. eapply wp_weaken; [apply round_status|].
    intros o w1 t1 (maj & Hst & Ho).
    destruct o as [v'|res| |]; try contradiction.
    + destruct Ho as (Hmaj & Hsend & Hdone).
      apply wp_if; intros Hcont.
      * eapply wp_weaken; [apply IH|]. intros o2 w2 t2 [Hpre Hend].
        unfold loop_ends. rewrite init_statuses_app, Hst, existsb_app, Hsend.
        cbn [app orb]. rewrite Hmaj in Hcont. apply Z.eqb_eq in Hcont.
        assert (Hhead : (GSS_S_CONTINUE_NEEDED =? maj) = true)
          by (apply Z.eqb_eq; congruence).
        revert Hpre Hend. destruct (init_statuses t2) as [|st sts]; intros Hpre Hend.
        { cbn [removelast last forallb] in *. rewrite Hhead. cbn [andb].
          split; [reflexivity|]. destruct o2.
          - destruct Hend as [Hl _]. discriminate.
          - destruct Hend as (Hrc & _). split; [exact Hrc|]. left.
            rewrite Hcont. discriminate.
          - contradiction.
          - split; [reflexivity|]. apply Hend. }
        change (removelast (maj :: st :: sts)) with (maj :: removelast (st :: sts)).
        change (last (maj :: st :: sts) GSS_S_CONTINUE_NEEDED)
          with (last (st :: sts) GSS_S_CONTINUE_NEEDED).
        cbn [forallb]. rewrite Hhead, Hpre. cbn [andb].
        split; [reflexivity|]. destruct o2; auto.
      * wp_run. unfold loop_ends. rewrite app_nil_r, Hst. cbn.
        split; [reflexivity|]. split; [|exact Hsend]. apply Hdone. now rewrite <- Hmaj.
    + unfold loop_ends. rewrite Hst. cbn. split; [reflexivity|]. exact Ho.
Qed.

Lemma loop_makes_a_call (fuel : nat) (v : negotiation) (w : W) :
  wp (establish_loop E fuel s target_name oid req_flags v) w
     (fun o _ t =>
        match o with
        | Normal _ | Returned _ => init_statuses t <> []
        | Exited _ | Unfinished => True
        end).
Proof.
  destruct fuel as [|fuel]; cbn [establish_loop]; [wp_run; exact I|].
  apply wp_bind. eapply wp_weaken; [apply round_status|].
  intros o w1 t1 (maj & Hst & Ho).
  destruct o as [v'|res| |]; try contradiction.
  - unfold wp.
    destruct (outcome_of _); try exact I;
      rewrite init_statuses_app, Hst; discriminate.
  - rewrite Hst. discriminate.
Qed.

End ReturnValue.

(** X6: what the return value of [client_establish_context] means.  It is
    0 exactly when the last status the provider returned is
    [GSS_S_COMPLETE] and no [send_token] failed, and -1 otherwise; every
    status before the last is [GSS_S_CONTINUE_NEEDED]; when it comes back
    without having called the provider (the name was refused) the
    out-parameters hold what they held on entry; and it never exits. *)
Theorem establish_return_value :
  forall (W : Type) (E : Env W) (fuel : nat) (s : Z) (service_name : string)
         (req_flags : OM_uint32) (oid : gss_OID) (gss_context : gss_ctx_id_t)
         (ret_flags : OM_uint32) (w : W),
    let r := client_establish_context E fuel s service_name req_flags oid
               gss_context ret_flags w in
    let statuses := init_statuses (trace_of r) in
    forallb (Z.eqb GSS_S_CONTINUE_NEEDED) (removelast statuses) = true /\
    match outcome_of r with
    | Normal res =>
        fst (fst res) = 0 /\
        last statuses GSS_S_CONTINUE_NEEDED = GSS_S_COMPLETE /\
        existsb is_failed_send (trace_of r) = false
    | Returned res =>
        fst (fst res) = -1 /\
        (last statuses GSS_S_CONTINUE_NEEDED <> GSS_S_COMPLETE \/
         existsb is_failed_send (trace_of r) = true) /\
        (statuses = [] -> res = (-1, gss_context, ret_flags))
    | Exited _ => False
    | Unfinished => True
    end.
Proof.
  intros W E fuel s service_name rf oid c f w. cbv zeta.
  change (wp (client_establish_context E fuel s service_name rf oid c f) w
            (fun o _ t =>
               forallb (Z.eqb GSS_S_CONTINUE_NEEDED) (removelast (init_statuses t)) = true /\
               match o with
               | Normal res =>
                   fst (fst res) = 0 /\
                   last (init_statuses t) GSS_S_CONTINUE_NEEDED = GSS_S_COMPLETE /\
                   existsb is_failed_send t = false
               | Returned res =>
                   fst (fst res) = -1 /\
                   (last (init_statuses t) GSS_S_CONTINUE_NEEDED <> GSS_S_COMPLETE \/
                    existsb is_failed_send t = true) /\
                   (init_statuses t = [] -> res = (-1, c, f))
               | Exited _ => False
               | Unfinished => True
               end)).
  unfold client_establish_context. cbv zeta. wp_run.
  - cbn. split; [reflexivity|]. split; [reflexivity|]. split; [|reflexivity].
    left. discriminate.
  - match goal with
    | |- wp (establish_loop E fuel s ?tn oid rf ?v0) ?w0 _ =>
        pose proof (loop_status E s tn oid rf fuel v0 w0) as Hends;
        pose proof (loop_makes_a_call E s tn oid rf fuel v0 w0) as Hcall
    end.
    unfold wp in *.
    destruct (outcome_of (establish_loop _ _ _ _ _ _ _ _)) as [v'|res| |];
      destruct Hends as [Hpre Hend].
    + cbn [app init_statuses existsb is_failed_send orb].
      rewrite !init_statuses_app, !existsb_app. cbn. rewrite !app_nil_r, !orb_false_r.
      split; [exact Hpre|]. split; [reflexivity|exact Hend].
    + cbn [app init_statuses existsb is_failed_send orb].
      split; [exact Hpre|]. destruct Hend as [Hrc Hwhy].
      split; [exact Hrc|]. split; [exact Hwhy|]. intros Hnil. contradiction.
    + contradiction.
    + cbn [app init_statuses]. split; [|exact I]. apply forallb_removelast, Hend.
Qed.

(** *** [client_establish_context]: buffers and calls *)

Section Buffers.

Context {W : Type} (E : Env W).
Variables (s : Z) (target_name : gss_name_t) (oid : gss_OID) (req_flags : OM_uint32).



Lemma round_footprint (v : negotiation) (w : W) :
  wp (establish_round E s target_name oid req_flags v) w
     (fun _ _ t =>
        forallb is_negotiation_event t = true /\
        Forall (fun e => match e with
                         | ev_send_token s' _ _ | ev_recv_token s' _ => s' = s
                         | _ => True
                         end) t).
Proof.
  unfold establish_round.
  wp_run; (split; [reflexivity|]); cbn [app]; repeat constructor.
Qed.

Lemma loop_footprint (fuel : nat) :
  forall (v : negotiation) (w : W),
    wp (establish_loop E fuel s target_name oid req_flags v) w
       (fun _ _ t =>
          forallb is_negotiation_event t = true /\
          Forall (fun e => match e with
                           | ev_send_token s' _ _ | ev_recv_token s' _ => s' = s
                           | _ => True
                           end) t).
Proof.
  induction fuel as [|fuel IH]; intros v w; cbn [establish_loop].
  - wp_run. split; [reflexivity|constructor].
  - apply wp_bind. eapply wp_weaken; [apply round_footprint|].
    intros o w1 t1 [Hf Hs]. destruct o; try (split; assumption).
    apply wp_if; intros _.
    + eapply wp_weaken; [apply IH|]. intros o2 w2 t2 [Hf2 Hs2].
      rewrite forallb_app, Hf, Hf2. split; [reflexivity|]. apply Forall_app. auto.
    + wp_run. rewrite app_nil_r. auto.
Qed.

End Buffers.

Section EstablishCalls.

Context {W : Type} (E : Env W).


Lemma establish_footprint (fuel : nat) (s : Z) (service_name : string)
    (req_flags : OM_uint32) (oid : gss_OID) (gss_context : gss_ctx_id_t)
    (ret_flags : OM_uint32) (w : W) :
  wp (client_establish_context E fuel s service_name req_flags oid gss_context ret_flags) w
     (fun _ _ t =>
        forallb is_negotiation_event t = true /\
        Forall (fun e => match e with
                         | ev_send_token s' _ _ | ev_recv_token s' _ => s' = s
                         | _ => True
                         end) t).
Proof.
  unfold client_establish_context. cbv zeta.
  wp_run; try (split; [reflexivity|repeat constructor]).
  eapply wp_weaken; [apply loop_footprint|]. intros o w2 t [Hf Hs].
  destruct o; wp_run; cbn [app forallb is_negotiation_event andb];
    rewrite ?forallb_app, ?Hf; cbn; (split; [reflexivity|]);
    repeat (apply Forall_cons; [exact I|]); try exact Hs;
    apply Forall_app; split; [exact Hs|repeat constructor].
Qed.

End EstablishCalls.



(** X8: [client_establish_context] stays within the negotiation: it calls
    nothing but the name import, the provider's initialisation step, the
    token transport, the releases, [gss_delete_sec_context] and the
    diagnostics (so it never closes the socket, wraps or verifies), and
    every token it sends or receives goes over the socket it was given. *)
Theorem establish_stays_within_negotiation :
  forall (W : Type) (E : Env W) (fuel : nat) (s : Z) (service_name : string)
         (req_flags : OM_uint32) (oid : gss_OID) (gss_context : gss_ctx_id_t)
         (ret_flags : OM_uint32) (w : W),
    let t := trace_of (client_establish_context E fuel s service_name req_flags oid
                         gss_context ret_flags w) in
    forallb is_negotiation_event t = true /\
    Forall (fun e => match e with
                     | ev_send_token s' _ _ | ev_recv_token s' _ => s' = s
                     | _ => True
                     end) t.
Proof. intros. apply (establish_footprint E). Qed.

(** *** The loop of [call_server] over the names of the mechanism *)



(** *** [call_server] *)

Lemma count_footprint (P K : event -> bool) (t : list event) :
  (forall e, P e = true -> K e = false) ->
  forallb P t = true -> count K t = 0%nat.
Proof.
  intros HPK. induction t as [|e t IH]; [reflexivity|]. cbn [forallb].
  intros H. apply andb_true_iff in H as [He Ht].
  rewrite count_cons, (HPK e He), (IH Ht). reflexivity.
Qed.

Lemma quiet_counts (t : list event) :
  existsb is_session_step t = false ->
  count is_close t = 0%nat /\ count is_wrap t = 0%nat /\
  count is_successful_wrap t = 0%nat /\ count is_verify_mic t = 0%nat /\
  count is_verified t = 0%nat /\ count is_delete_sec_context t = 0%nat /\
  count is_socket_opened t = 0%nat /\ count is_import_name t = 0%nat /\
  count is_display_ctx_flags t = 0%nat /\ count is_release_oid t = 0%nat.
Proof.
  induction t as [|e t IH]; [intros _; repeat split|]. cbn [existsb]. intros H.
  apply orb_false_iff in H as [He Ht]. specialize (IH Ht).
  rewrite !count_cons. destruct e; cbn in He |- *; try discriminate; exact IH.
Qed.

Section Session.

Context {W : Type} (E : Env W).

Lemma connect_steps (host : string) (tcp_port : Z) (w : W) :
  wp (connect_to_server E host tcp_port) w
     (fun o _ t =>
        count is_wrap t = 0%nat /\ count is_successful_wrap t = 0%nat /\
        count is_verify_mic t = 0%nat /\ count is_verified t = 0%nat /\
        count is_delete_sec_context t = 0%nat /\ count is_import_name t = 0%nat /\
        count is_display_ctx_flags t = 0%nat /\ count is_release_oid t = 0%nat /\
        match o with
        | Normal s =>
            0 <= s /\ count is_close t = 0%nat /\ count is_socket_opened t = 1%nat /\
            In (ev_socket s) t
        | Returned v =>
            v = -1 /\ (count is_close t <= 1)%nat /\
            count is_close t = count is_socket_opened t
        | Exited _ | Unfinished => False
        end).
Proof.
  unfold connect_to_server.
  wp_run; z_tests; count_events;
    try match goal with |- context [0 <=? ?x] => destruct (Z.leb_spec 0 x); try lia end;
    cbn; repeat split; auto; lia.
Qed.

Lemma round_steps (s : Z) (target_name : gss_name_t) (oid : gss_OID)
    (req_flags : OM_uint32) (v : negotiation) (w : W) :
  wp (establish_round E s target_name oid req_flags v) w
     (fun o _ t =>
        match o with
        | Normal _ => existsb is_session_step t = false
        | Returned res => fst (fst res) = -1
        | Exited _ | Unfinished => False
        end).
Proof. unfold establish_round. wp_run; reflexivity. Qed.

Lemma loop_steps (fuel : nat) (s : Z) (target_name : gss_name_t) (oid : gss_OID)
    (req_flags : OM_uint32) :
  forall (v : negotiation) (w : W),
    wp (establish_loop E fuel s target_name oid req_flags v) w
       (fun o _ t =>
          match o with
          | Normal _ | Unfinished => existsb is_session_step t = false
          | Returned res => fst (fst res) = -1
          | Exited _ => False
          end).
Proof.
  induction fuel as [|fuel IH]; intros v w; cbn [establish_loop].
  - wp_run. reflexivity.
  - apply wp_bind. eapply wp_weaken; [apply round_steps|].
    intros o w1 t1 H1. destruct o; try contradiction; try exact H1.
    apply wp_if; intros _.
    + eapply wp_weaken; [apply IH|]. intros o2 w2 t2 H2.
      destruct o2; try exact H2; now rewrite existsb_app, H1, H2.
    + wp_run. now rewrite app_nil_r.
Qed.

Lemma round_imports_nothing (s : Z) (target_name : gss_name_t) (oid : gss_OID)
    (req_flags : OM_uint32) (v : negotiation) (w : W) :
  wp (establish_round E s target_name oid req_flags v) w
     (fun _ _ t => count is_import_name t = 0%nat).
Proof. unfold establish_round. wp_run; reflexivity. Qed.

Lemma loop_imports_nothing (fuel : nat) (s : Z) (target_name : gss_name_t) (oid : gss_OID)
    (req_flags : OM_uint32) :
  forall (v : negotiation) (w : W),
    wp (establish_loop E fuel s target_name oid req_flags v) w
       (fun _ _ t => count is_import_name t = 0%nat).
Proof.
  induction fuel as [|fuel IH]; intros v w; cbn [establish_loop].
  - wp_run. reflexivity.
  - apply wp_bind. eapply wp_weaken; [apply round_imports_nothing|].
    intros o w1 t1 H1. destruct o; try exact H1.
    apply wp_if; intros _.
    + eapply wp_weaken; [apply IH|]. intros o2 w2 t2 H2. cbv beta in *.
      rewrite count_app. lia.
    + wp_run. cbv beta in *. rewrite count_app. cbn. lia.
Qed.

Lemma establish_imports_once (fuel : nat) (s : Z) (service_name : string)
    (req_flags : OM_uint32) (oid : gss_OID) (gss_context : gss_ctx_id_t)
    (ret_flags : OM_uint32) (w : W) :
  wp (client_establish_context E fuel s service_name req_flags oid gss_context ret_flags) w
     (fun _ _ t => count is_import_name t = 1%nat).
Proof.
  unfold client_establish_context. cbv zeta. wp_run; [reflexivity|].
  eapply wp_weaken; [apply loop_imports_nothing|]. intros o w2 t Hl.
  cbv beta in Hl. destruct o; wp_run; count_events; lia.
Qed.

Lemma establish_steps (fuel : nat) (s : Z) (service_name : string)
    (req_flags : OM_uint32) (oid : gss_OID) (gss_context : gss_ctx_id_t)
    (ret_flags : OM_uint32) (w : W) :
  wp (client_establish_context E fuel s service_name req_flags oid gss_context ret_flags) w
     (fun o _ t =>
        count is_close t = 0%nat /\ count is_wrap t = 0%nat /\
        count is_successful_wrap t = 0%nat /\ count is_verify_mic t = 0%nat /\
        count is_verified t = 0%nat /\ count is_socket_opened t = 0%nat /\
        count is_display_ctx_flags t = 0%nat /\ count is_release_oid t = 0%nat /\
        count is_import_name t = 1%nat /\
        match o with
        | Normal res => fst (fst res) = 0 /\ count is_delete_sec_context t = 0%nat
        | Returned res => fst (fst res) = -1
        | Exited _ => False
        | Unfinished => count is_delete_sec_context t = 0%nat
        end).
Proof.
  pose proof (establish_footprint E fuel s service_name req_flags oid gss_context ret_flags w)
    as [Hf _].
  pose proof (establish_imports_once fuel s service_name req_flags oid gss_context ret_flags w)
    as Hi.
  unfold wp in Hf, Hi |- *.
  repeat (split; [apply (count_footprint is_negotiation_event); [|exact Hf];
                  intros e; destruct e; cbn; congruence|]).
  split; [exact Hi|]. clear Hf Hi.
  change (wp (client_establish_context E fuel s service_name req_flags oid gss_context
                ret_flags) w
            (fun o _ t =>
               match o with
               | Normal res => fst (fst res) = 0 /\ count is_delete_sec_context t = 0%nat
               | Returned res => fst (fst res) = -1
               | Exited _ => False
               | Unfinished => count is_delete_sec_context t = 0%nat
               end)).
  unfold client_establish_context. cbv zeta. wp_run; [reflexivity|].
  eapply wp_weaken; [apply loop_steps|]. intros o w2 t Hl.
  destruct o; auto; try apply quiet_counts in Hl as (_ & _ & _ & _ & _ & Hd & _);
    wp_run; count_events; try split; try reflexivity; lia.
Qed.

Lemma read_file_steps (file_name : string) (w : W) :
  wp (read_file E file_name) w
     (fun o _ t =>
        existsb is_session_step t = false /\
        match o with
        | Exited c => c = 1
        | Unfinished => False
        | Normal _ | Returned _ => True
        end).
Proof. unfold read_file. wp_run; split; reflexivity || exact I. Qed.

Lemma mech_names_steps (elements : list gss_OID_desc) :
  forall (i : Z) (w : W),
    wp (display_mech_names E i elements) w
       (fun o _ t =>
          existsb is_session_step t = false /\
          match o with
          | Normal _ => True
          | Returned v => v = -1
          | Exited _ | Unfinished => False
          end).
Proof.
  induction elements as [|e rest IH]; intros; cbn [display_mech_names].
  - wp_run. split; [reflexivity|exact I].
  - wp_run; try (split; reflexivity).
    eapply wp_weaken; [apply IH|]. intros o w2 t [Hq Ho].
    split; [|destruct o; exact Ho]. cbn [app existsb]. exact Hq.
Qed.

(** Closes a path of [call_server] or [main] from what its steps have
    counted: every count of the trace is worked out once, on its own. *)
Ltac tally :=
  repeat match goal with
         | H : existsb is_session_step _ = false |- _ =>
             apply quiet_counts in H as (? & ? & ? & ? & ? & ? & ? & ? & ? & ?)
         | H : _ /\ _ |- _ => destruct H
         | H : negb _ = true |- _ => apply negb_true_iff in H
         | H : negb _ = false |- _ => apply negb_false_iff in H
         end;
  repeat match goal with
         | |- context [String ?c ?s] => generalize (String c s); intro
         end;
  cbn [app];
  let tr := fresh "tr" in
  let Etr := fresh "Etr" in
  lazymatch goal with
  | |- session_post _ _ ?T => remember T as tr eqn:Etr
  | |- main_post _ _ ?T => remember T as tr eqn:Etr
  | |- _ => idtac
  end;
  unfold session_post, socket_accounted, main_post;
  repeat match goal with
         | |- context [count ?K ?T] =>
             let n := fresh "n" in
             let En := fresh "En" in
             remember (count K T) as n eqn:En;
             try rewrite Etr in En;
             repeat (progress (rewrite ?count_app, ?count_cons, ?count_nil in En;
                               cbn -[Z.eqb Z.ltb] in En));
             repeat match type of En with
                    | context [if ?b then _ else _] =>
                        match goal with
                        | H : b = true |- _ => rewrite H in En
                        | H : b = false |- _ => rewrite H in En
                        end
                    end
         end;
  try clear Etr;
  repeat match goal with |- _ /\ _ => split end;
  try reflexivity; try assumption;
  lazymatch goal with
  | |- _ \/ _ =>
      first [ solve [left; repeat split; lia]
            | solve [right; left; repeat split; lia]
            | solve [right; right; left; repeat split; lia]
            | solve [right; right; right; repeat split; lia] ]
  | |- _ => try lia
  end.

(** Follows every path of [call_server], through the functions it calls,
    dropping the paths whose tests contradict each other. *)
Ltac session_paths :=
  unfold call_server; cbv zeta;
  repeat (wp_run;
          try match goal with
              | |- wp (invoke (connect_to_server _ _ _)) _ _ =>
                  apply wp_invoke; eapply wp_weaken; [apply connect_steps|];
                  intros [?|?| |] ? ? Hconnect; cbv beta in Hconnect;
                  decompose [and] Hconnect; clear Hconnect; try contradiction
              | |- wp (invoke (client_establish_context _ _ _ _ _ _ _ _)) _ _ =>
                  apply wp_invoke; eapply wp_weaken; [apply establish_steps|];
                  intros [?|?| |] ? ? Hest; cbv beta in Hest;
                  decompose [and] Hest; clear Hest; try contradiction
              | |- wp (display_mech_names _ _ _) _ _ =>
                  eapply wp_weaken; [apply mech_names_steps|];
                  intros [?|?| |] ? ? [? ?]; try contradiction
              | |- wp (invoke (read_file _ _)) _ _ =>
                  apply wp_invoke; eapply wp_weaken; [apply read_file_steps|];
                  intros [?|?| |] ? ? [? ?]; try contradiction
              end;
          try (exfalso; z_tests; lia)).

Lemma call_server_steps (fuel : nat) (host : string) (tcp_port : Z) (oid : gss_OID)
    (service_name : string) (req_flag : OM_uint32) (msg : string)
    (from_file sealed : bool) (w : W) :
  wp (call_server E fuel host tcp_port oid service_name req_flag msg from_file sealed) w
     (fun o _ t => session_post from_file o t).
Proof. session_paths; subst; tally. Qed.

Lemma split_app {A : Type} (t rest pre tail_ : list A) :
  rest = pre ++ tail_ -> t ++ rest = (t ++ pre) ++ tail_.
Proof. intros ->. now rewrite app_assoc. Qed.

Lemma split_cons (e : event) (rest pre tail_ : list event) :
  rest = pre ++ tail_ -> e :: rest = (e :: pre) ++ tail_.
Proof. intros ->. reflexivity. Qed.

Lemma split_nil {A : Type} (tail_ : list A) : tail_ = [] ++ tail_.
Proof. reflexivity. Qed.

(** Splits a trace in front of its [gss_wrap]. *)
Ltac split_cons_other :=
  lazymatch goal with
  | |- ev_wrap _ _ _ _ _ :: _ = _ => fail
  | |- _ :: _ = _ => eapply split_cons
  end.

Lemma call_server_success (fuel : nat) (host : string) (tcp_port : Z) (oid : gss_OID)
    (service_name : string) (req_flag : OM_uint32) (msg : string)
    (from_file sealed : bool) (w : W) :
  wp (call_server E fuel host tcp_port oid service_name req_flag msg from_file sealed) w
     (fun o _ t =>
        match o with
        | Normal _ =>
            exists (warning pre : list event) (s : Z) (context : gss_ctx_id_t)
                   (in_buf out_buf mic token : gss_buffer_desc) (rc_send rc_recv : Z),
              t = pre ++
                  ev_wrap context (if sealed then 1 else 0) in_buf GSS_S_COMPLETE out_buf ::
                  warning ++
                  ev_send_token s out_buf rc_send :: ev_release_buffer out_buf ::
                  ev_recv_token s rc_recv ::
                  ev_verify_mic context in_buf mic GSS_S_COMPLETE :: ev_release_buffer mic ::
                  (if from_file then [ev_free] else []) ++
                  [ev_stdout "Signature verified.\n"; ev_delete_sec_context context;
                   ev_release_buffer token; ev_close s] /\
              (warning = [] \/ warning = [not_encrypted_warning]) /\
              0 <= rc_send /\ 0 <= rc_recv /\
              (from_file = false -> in_buf = string_buffer msg) /\
              In (ev_socket s) pre /\
              count is_close pre = 0%nat /\ count is_wrap pre = 0%nat /\
              count is_delete_sec_context pre = 0%nat
        | Returned _ | Exited _ | Unfinished => True
        end).
Proof.
  session_paths; try exact I; try congruence; z_tests;
    try subst from_file;
    first [ match goal with
            | H : wrap_conf_state _ = 0 |- _ => exists [not_encrypted_warning]
            end
          | exists [] ];
    do 9 eexists;
    (split;
     [ cbn [app];
       repeat match goal with
              | H : wrap_maj_stat _ = GSS_S_COMPLETE |- _ => rewrite H; clear H
              | H : fst _ = GSS_S_COMPLETE |- _ => rewrite H; clear H
              end;
       repeat first [ eapply split_app | split_cons_other | eapply split_nil ]
     |]);
    (split; [auto|]); (split; [eassumption|]); (split; [eassumption|]);
    (split; [intros; first [discriminate | reflexivity]|]);
    (split; [apply in_or_app; left; eassumption|]);
    tally.
Qed.

Lemma parse_oid_steps (m : string) (oid : gss_OID) (w : W) :
  wp (parse_oid E m oid) w
     (fun o _ t =>
        existsb is_session_step t = false /\
        match o with
        | Normal _ | Returned _ => True
        | Exited _ | Unfinished => False
        end).
Proof. unfold parse_oid. cbv zeta. wp_run; split; reflexivity || exact I. Qed.

Lemma main_steps (fuel : nat) (argv : list string) (w : W) :
  wp (main E fuel argv) w
     (fun o _ t =>
        main_post (exists (o : options) (server_host service_name msg : string),
                      outcome_of (parse_arguments E (tl argv) initial_options w)
                      = Normal (o, [server_host; service_name; msg])) o t).
Proof.
  unfold main. apply wp_bind.
  assert (Hrange : options_in_range initial_options) by (split; cbn; [lia|auto]).
  pose proof (parse_arguments_keeps_range E _ (tl argv) initial_options w (Nat.le_refl _)
                Hrange) as Hargs.
  pose proof (parse_arguments_pure E _ (tl argv) initial_options w (Nat.le_refl _))
    as [_ Hquiet].
  unfold wp in Hargs. unfold wp at 1.
  destruct (outcome_of (parse_arguments E (tl argv) initial_options w))
    as [[o rest]| |c|] eqn:Hout; try contradiction.
  - rewrite (Hquiet _ eq_refl). clear Hargs Hquiet. cbn [fst snd].
    destruct rest as [|server_host [|service_name [|msg [|extra rest]]]];
      try solve [wp_run; tally].
    match goal with
    | |- wp _ _ (fun _ _ _ => main_post ?three_words _ _) =>
        assert (Hthree : three_words)
          by (exists o, server_host, service_name, msg; reflexivity)
    end.
    apply wp_bind.
    assert (Hoid : wp (match mechanism o with
                       | Some m => invoke (R' := Z) (parse_oid E m GSS_C_NULL_OID)
                       | None => ret GSS_C_NULL_OID
                       end)
                      (world_of (parse_arguments E (tl argv) initial_options w))
                      (fun o1 _ t1 =>
                         existsb is_session_step t1 = false /\
                         match o1 with Normal _ => True | _ => False end)).
    { destruct (mechanism o); [|wp_run; split; [reflexivity|exact I]].
      apply wp_invoke. eapply wp_weaken; [apply parse_oid_steps|].
      intros [?|?| |] ? ? [? ?]; try contradiction; split; auto. }
    eapply wp_weaken; [exact Hoid|]. clear Hoid.
    intros [oid|?| |] w1 t1 [Hq1 Ho1]; try contradiction.
    apply wp_bind. apply wp_invoke. eapply wp_weaken; [apply call_server_steps|].
    intros o3 w3 t3 (Hc & Hw & Hv & Hr & Ho & _).
    destruct o3 as [rc|rc|c'|]; wp_run; try (exfalso; z_tests; lia); tally.
  - destruct Hargs as [-> Ht]. rewrite Ht. tally.
Qed.

End Session.

(** X10: what [call_server] gives back.  It returns 0 or -1 and exits
    nowhere but in [read_file] (with status 1, when the message is a file
    name; the socket is then still open and nothing was wrapped).  It closes
    the socket, calls [gss_wrap] and calls [gss_verify_mic] at most once
    each, and never releases the mechanism OID.  When it returns 0 the
    message was wrapped successfully, the signature block was verified,
    and the socket was closed and the context deleted, once each. *)
Theorem call_server_outcome :
  forall (W : Type) (E : Env W) (fuel : nat) (host : string) (tcp_port : Z) (oid : gss_OID)
         (service_name : string) (req_flag : OM_uint32) (msg : string)
         (from_file sealed : bool) (w : W),
    let r := call_server E fuel host tcp_port oid service_name req_flag msg from_file sealed w in
    let t := trace_of r in
    (count is_close t <= 1)%nat /\
    (count is_wrap t <= 1)%nat /\
    (count is_verify_mic t <= 1)%nat /\
    count is_release_oid t = 0%nat /\
    match outcome_of r with
    | Normal v =>
        v = 0 /\
        count is_successful_wrap t = 1%nat /\
        count is_verified t = 1%nat /\
        count is_close t = 1%nat /\
        count is_delete_sec_context t = 1%nat
    | Returned v => v = -1
    | Exited c =>
        c = 1 /\ from_file = true /\ count is_wrap t = 0%nat /\ count is_close t = 0%nat
    | Unfinished => count is_wrap t = 0%nat
    end.
Proof.
  intros W E fuel host tcp_port oid service_name req_flag msg from_file sealed w. cbv zeta.
  destruct (call_server_steps E fuel host tcp_port oid service_name req_flag msg from_file
              sealed w) as (Hc & Hw & Hv & Hr & Ho & _).
  repeat split; assumption.
Qed.

(** X11: the end of a session that succeeds.  When [call_server] returns
    0, its trace ends with these steps and no others: one successful
    [gss_wrap] of the message with [conf_req] set as -seal says, the
    warning if the provider did not encrypt, the wrapped token sent on the
    socket that [connect_to_server] opened and then released, a token
    received on the same socket, [gss_verify_mic] accepting it for the
    message that was wrapped, under the same context, its release, the
    file buffer freed if there is one, the context deleted and the socket
    closed.  Before the [gss_wrap] nothing was wrapped, closed or deleted.
    Without -f the message wrapped is the [msg] argument itself. *)
Theorem call_server_success_trace :
  forall (W : Type) (E : Env W) (fuel : nat) (host : string) (tcp_port : Z) (oid : gss_OID)
         (service_name : string) (req_flag : OM_uint32) (msg : string)
         (from_file sealed : bool) (w : W),
    let r := call_server E fuel host tcp_port oid service_name req_flag msg from_file sealed w in
    match outcome_of r with
    | Normal _ =>
        exists (warning pre : list event) (s : Z) (context : gss_ctx_id_t)
               (in_buf out_buf mic token : gss_buffer_desc) (rc_send rc_recv : Z),
          trace_of r
          = pre ++
            ev_wrap context (if sealed then 1 else 0) in_buf GSS_S_COMPLETE out_buf ::
            warning ++
            ev_send_token s out_buf rc_send :: ev_release_buffer out_buf ::
            ev_recv_token s rc_recv ::
            ev_verify_mic context in_buf mic GSS_S_COMPLETE :: ev_release_buffer mic ::
            (if from_file then [ev_free] else []) ++
            [ev_stdout "Signature verified.\n"; ev_delete_sec_context context;
             ev_release_buffer token; ev_close s] /\
          (warning = [] \/ warning = [not_encrypted_warning]) /\
          0 <= rc_send /\ 0 <= rc_recv /\
          (from_file = false -> in_buf = string_buffer msg) /\
          In (ev_socket s) pre /\
          count is_close pre = 0%nat /\ count is_wrap pre = 0%nat /\
          count is_delete_sec_context pre = 0%nat
    | Returned _ | Exited _ | Unfinished => True
    end.
Proof.
  intros W E fuel host tcp_port oid service_name req_flag msg from_file sealed w. cbv zeta.
  exact (call_server_success E fuel host tcp_port oid service_name req_flag msg from_file
           sealed w).
Qed.


(** *** [main] *)

(** X13: the exit status of the program.  [main] returns 0 only when the
    argument loop left exactly a host, a service and a message and the
    session with the server went through: the signature block was verified,
    and the socket was closed and the context deleted, once each.  In every
    other case that ends, it exits with status 1.  It releases the mechanism
    OID at most once, and not at all on the runs that exit. *)
Theorem main_exit_status :
  forall (W : Type) (E : Env W) (fuel : nat) (argv : list string) (w : W),
    let r := main E fuel argv w in
    let t := trace_of r in
    (count is_release_oid t <= 1)%nat /\
    match outcome_of r with
    | Normal v =>
        v = 0 /\
        (exists (o : options) (server_host service_name msg : string),
            outcome_of (parse_arguments E (tl argv) initial_options w)
            = Normal (o, [server_host; service_name; msg])) /\
        count is_verified t = 1%nat /\
        count is_close t = 1%nat /\
        count is_delete_sec_context t = 1%nat
    | Exited c => c = 1 /\ count is_release_oid t = 0%nat
    | Returned _ => False
    | Unfinished => count is_release_oid t = 0%nat
    end.
Proof.
  intros W E fuel argv w. cbv zeta. exact (main_steps E fuel argv w).
Qed.

End GssClientMore.
